(** * CCM/CSI migration tasks of KubeOne: a shallow embedding

    The development follows [pkg/tasks/ccm_csi_migration.go].  The Go
    functions are translated one by one; every call that leaves the process
    (the controller-runtime client, the node drainer, the SSH runner, the
    systemd status probe) goes through an explicit world: the cluster store,
    the Go heap that holds the annotation maps of decoded objects, and the
    chronological list of the calls issued so far.  What the collaborators
    answer is taken from an environment, a record of response functions
    indexed by the number of calls issued before.  Logging leaves no mark in
    the world. *)

From Stdlib Require Import ZArith Ascii String.
From stdpp Require Import base option list gmap strings fin_maps pretty.

Local Open Scope string_scope.

(** ** Errors

    [github.com/pkg/errors]: [errors.New] creates a leaf, [errors.Wrap] and
    [errors.Wrapf] put a message in front of a cause; the text of a wrapped
    error is the message, a colon and a space, and the text of the cause. *)

Inductive error : Type :=
| errNew (msg : string)
| errWrap (cause : error) (msg : string).


#[global] Instance error_eq_dec : EqDecision error.
Proof. solve_decision. Defined.

(** The double quote character, as [%q] and the escaped quotes of the Go
    format strings print it. *)
Definition dquote : string := String (ascii_of_nat 34) EmptyString.

(** [%q] on a string without characters to escape (Kubernetes object names
    are DNS labels). *)
Definition quoted (s : string) : string := dquote ++ s ++ dquote.


(** ** [strconv.ParseBool] *)

Definition ParseBool (str : string) : bool * option error :=
  if bool_decide (str ∈ ["1"; "t"; "T"; "TRUE"; "true"; "True"]) then (true, None)
  else if bool_decide (str ∈ ["0"; "f"; "F"; "FALSE"; "false"; "False"]) then (false, None)
  else (false, Some (errNew ("strconv.ParseBool: parsing " ++ quoted str ++ ": invalid syntax"))).

(** ** The KubeOne API types the tasks read ([pkg/apis/kubeone]) *)

Module kubeoneapi.

Record HostConfig : Type := {
  ID : Z;
  PublicAddress : string;
  PrivateAddress : string;
  Hostname : string;
  IsLeader : bool;
}.

Record StaticWorkersConfig : Type := {
  Hosts : list HostConfig;
}.

Inductive AWSSpec : Type := mkAWSSpec.
Inductive AzureSpec : Type := mkAzureSpec.
Inductive DigitalOceanSpec : Type := mkDigitalOceanSpec.
Inductive GCESpec : Type := mkGCESpec.
Record HetznerSpec : Type := { NetworkID : string }.
Inductive OpenstackSpec : Type := mkOpenstackSpec.
Inductive PacketSpec : Type := mkPacketSpec.
Inductive VsphereSpec : Type := mkVsphereSpec.
Inductive NoneSpec : Type := mkNoneSpec.

(** Pointer fields are options: [None] is the nil pointer. *)
Record CloudProviderSpec : Type := {
  External : bool;
  CloudConfig : string;
  CSIConfig : string;
  AWS : option AWSSpec;
  Azure : option AzureSpec;
  DigitalOcean : option DigitalOceanSpec;
  GCE : option GCESpec;
  Hetzner : option HetznerSpec;
  Openstack : option OpenstackSpec;
  Packet : option PacketSpec;
  Vsphere : option VsphereSpec;
  NoneProvider : option NoneSpec;
}.

Record KubeOneCluster : Type := {
  Name : string;
  CloudProvider : CloudProviderSpec;
  StaticWorkers : StaticWorkersConfig;
}.

End kubeoneapi.
Export kubeoneapi.

(** ** The run state ([pkg/state]), restricted to what the tasks read *)

Record LiveCCMStatus : Type := {
  InTreeCloudProviderEnabled : bool;
  ExternalCCMDeployed : bool;
}.

Record LiveClusterStatus : Type := {
  CCMStatus : LiveCCMStatus;
}.

(** The controller-runtime client behind [s.DynamicClient]; the pointer is
    an option. *)
Inductive Client : Type := mkClient.

Record State : Type := {
  Cluster : KubeOneCluster;
  LiveCluster : LiveClusterStatus;
  CCMMigrationComplete : bool;
  DynamicClient : option Client;
  Verbose : bool;
  WorkDir : string;
}.

(** ** [validateExternalCloudProviderConfig] *)

Section Validate.

(** [CloudProviderSpec.CSIMigrationSupported] is declared outside the
    sources embedded here; it is a parameter of the validation. *)
Variable CSIMigrationSupported : CloudProviderSpec -> bool.

Definition validateExternalCloudProviderConfig (s : State) : option error :=
  if negb (External (CloudProvider (Cluster s))) then
    Some (errNew ".cloudProvider.external must be enabled to start the migration")
  else if negb (CSIMigrationSupported (CloudProvider (Cluster s))) then
    Some (errNew "ccm/csi migration is not supported for the specified provider")
  else if negb (InTreeCloudProviderEnabled (CCMStatus (LiveCluster s))) then
    Some (errNew "the cluster is already running external ccm")
  else if ExternalCCMDeployed (CCMStatus (LiveCluster s)) && negb (CCMMigrationComplete s) then
    Some (errNew "the ccm/csi migration is currently in progress, run command with --complete to finish it")
  else if bool_decide (is_Some (Vsphere (CloudProvider (Cluster s))))
          && bool_decide (CSIConfig (CloudProvider (Cluster s)) = "") then
    Some (errNew "the ccm/csi migration for vsphere requires providing csi configuration using .cloudProvider.csiConfig field")
  else if bool_decide (0 < length (Hosts (StaticWorkers (Cluster s))))%nat then
    Some (errNew "the ccm/csi migration for cluster with static worker nodes is currently unsupported")
  else None.

(** The six checks of the validator as the specification lists them: each
    with the condition that must hold and the error reported when it does
    not. *)
Definition ValidateStart_checks (s : State) : list (bool * error) :=
  [ (External (CloudProvider (Cluster s)),
     errNew ".cloudProvider.external must be enabled to start the migration");
    (CSIMigrationSupported (CloudProvider (Cluster s)),
     errNew "ccm/csi migration is not supported for the specified provider");
    (InTreeCloudProviderEnabled (CCMStatus (LiveCluster s)),
     errNew "the cluster is already running external ccm");
    (negb (ExternalCCMDeployed (CCMStatus (LiveCluster s)) && negb (CCMMigrationComplete s)),
     errNew "the ccm/csi migration is currently in progress, run command with --complete to finish it");
    (implb (bool_decide (is_Some (Vsphere (CloudProvider (Cluster s)))))
           (negb (bool_decide (CSIConfig (CloudProvider (Cluster s)) = ""))),
     errNew "the ccm/csi migration for vsphere requires providing csi configuration using .cloudProvider.csiConfig field");
    (bool_decide (Hosts (StaticWorkers (Cluster s)) = []),
     errNew "the ccm/csi migration for cluster with static worker nodes is currently unsupported") ].

(** Evaluation in order, stopping at the first check that fails. *)
Fixpoint firstFailure (checks : list (bool * error)) : option error :=
  match checks with
  | [] => None
  | (ok, e) :: rest => if ok then firstFailure rest else Some e
  end.

End Validate.

(** ** Kubernetes API objects ([k8s.io/api/core/v1], [metav1]) *)

(** A Go map value is a reference: [None] is the nil map, [Some l] points to
    cell [l] of the heap of maps.  Copying a struct copies the reference. *)
Abbreviation loc := nat (only parsing).

Module metav1.
Definition NamespaceSystem : string := "kube-system".
End metav1.

Module corev1.

Definition PodRunning : string := "Running".
Definition PodReady : string := "Ready".
Definition ContainersReady : string := "ContainersReady".
Definition ConditionTrue : string := "True".

Record PodCondition : Type := {
  Type_ : string;
  Status : string;
}.

Record PodStatus : Type := {
  Phase : string;
  Conditions : list PodCondition;
}.

Record Pod : Type := {
  PodName : string;
  PodNamespace : string;
  Status_ : PodStatus;
}.

(** The fields of the embedded [ObjectMeta] the annotator reads. *)
Record PersistentVolume : Type := {
  Name : string;
  Namespace : string;
  Annotations : option loc;
}.

End corev1.

(** A machine of the machine-controller API, with the annotations of its
    [ObjectMeta]. *)
Record Machine : Type := {
  MachineName : string;
  MachineAnnotations : gmap string string;
}.

(** ** The world *)

(** A JSON merge patch on the annotations: a key is set to a value or
    removed. *)
Abbreviation AnnotationPatch := (gmap string (option string)).

Inductive Event : Type :=
| EvListMachines
| EvListPersistentVolumes
| EvGetPod (namespace name : string)
| EvPatchPersistentVolume (name : string) (patch : AnnotationPatch)
| EvCordon (node : string) (desired : bool)
| EvDrain (node : string)
| EvRunRaw (cmd : string)
| EvSystemdStatus (unit_name : string)
| EvSleep (d : Z).

#[global] Instance Event_eq_dec : EqDecision Event.
Proof. solve_decision. Defined.

Record World : Type := mkWorld {
  (** the PersistentVolume objects stored in the cluster, by name, each with
      its annotations *)
  persistentVolumes : gmap string (gmap string string);
  (** the nodes marked unschedulable *)
  unschedulable : gset string;
  (** the maps allocated by the process *)
  heap : list (gmap string string);
  (** the calls issued to the collaborators, oldest first *)
  trace : list Event;
}.

Definition is_patch (ev : Event) : bool :=
  match ev with EvPatchPersistentVolume _ _ => true | _ => false end.



(** A [Data] value of the script renderer. *)
Inductive DataValue : Type :=
| DataString (s : string)
| DataInt (n : Z).

Abbreviation Data := (list (string * DataValue)).

(** What the collaborators answer.  The first argument of a response is the
    number of calls issued before this one, so an answer may change from one
    call to the next.  [Render] (the template engine of [pkg/scripts]) and
    [KubeadmVerboseFlag] (a method of the run state) are declared outside the
    sources embedded here and are taken from here as well. *)
Record Env : Type := {
  listMachines : nat -> error + list Machine;
  listPersistentVolumesErr : nat -> option error;
  getPod : nat -> string -> string -> error + corev1.Pod;
  patchErr : nat -> string -> option error;
  cordonErr : nat -> string -> bool -> option error;
  drainErr : nat -> string -> option error;
  runRaw : nat -> string -> string * string * option error;
  systemdStatusOf : nat -> string -> Z * option error;
  Render : string -> Data -> string * option error;
  KubeadmVerboseFlag : State -> string;
}.

(** ** The monad of the tasks: world passing with early return on error *)

Inductive result (A : Type) : Type :=
| Ret (a : A)
| Fail (e : error)
| Panic (msg : string).
Arguments Ret {A} a.
Arguments Fail {A} e.
Arguments Panic {A} msg.

Definition M (A : Type) : Type := World -> result A * World.

#[global] Instance M_ret : MRet M := λ A a w, (Ret a, w).

#[global] Instance M_bind : MBind M := λ A B k c w,
  match c w with
  | (Ret a, w') => k a w'
  | (Fail e, w') => (Fail e, w')
  | (Panic msg, w') => (Panic msg, w')
  end.

Definition fail {A} (e : error) : M A := λ w, (Fail e, w).

Definition panic {A} (msg : string) : M A := λ w, (Panic msg, w).

(** [if err != nil { return errors.Wrap(err, msg) }] around a call. *)
Definition wrapErr {A} (msg : string) (c : M A) : M A := λ w,
  match c w with
  | (Fail e, w') => (Fail (errWrap e msg), w')
  | r => r
  end.

(** Records a call and returns the number of calls issued before it. *)
Definition call (ev : Event) : M nat := λ w,
  (Ret (length (trace w)),
   mkWorld (persistentVolumes w) (unschedulable w) (heap w) (trace w ++ [ev])).

(** The events of [w'] issued after those of [w]. *)
Definition issued (w w' : World) : list Event := drop (length (trace w)) (trace w').

(** ** [time] and [k8s.io/apimachinery/pkg/util/wait] *)

Module time.

(** A [time.Duration] is a number of nanoseconds. *)
Definition Second : Z := 1000000000.
Definition Minute : Z := 60 * Second.

Definition Sleep (d : Z) : M unit := _ ← call (EvSleep d); mret tt.

(** [Duration.String] (what [%s] prints), for a whole number of seconds:
    hours and minutes appear once they are not zero, seconds always. *)
Definition String (d : Z) : string :=
  let secs := (d / Second)%Z in
  let h := (secs / 3600)%Z in
  let m := ((secs / 60) mod 60)%Z in
  let sec := (secs mod 60)%Z in
  if (0 <? h)%Z then pretty h ++ "h" ++ pretty m ++ "m" ++ pretty sec ++ "s"
  else if (0 <? m)%Z then pretty m ++ "m" ++ pretty sec ++ "s"
  else pretty sec ++ "s".

End time.

Module wait.

Definition ErrWaitTimeout : error := errNew "timed out waiting for the condition".

(** The condition is tried, and tried again at each of the [n] remaining
    ticks until it reports done or fails; running out of ticks is the
    timeout. *)
Fixpoint poll (n : nat) (condition : M bool) : M unit := λ w,
  match condition w with
  | (Ret true, w') => (Ret tt, w')
  | (Ret false, w') =>
      match n with
      | O => (Fail ErrWaitTimeout, w')
      | S n' => poll n' condition w'
      end
  | (Fail e, w') => (Fail e, w')
  | (Panic msg, w') => (Panic msg, w')
  end.

(** [PollImmediate]: the condition runs at once and then once per
    [interval] until [timeout] has passed, that is at most
    [1 + timeout / interval] times.  The waiting between two ticks is not
    part of the world. *)
Definition PollImmediate (interval timeout : Z) (condition : M bool) : M unit :=
  poll (Z.to_nat (timeout / interval)) condition.

End wait.

(** ** The collaborators *)

(** [m[key]] on a Go map: the zero value when the map is nil or has no such
    key. *)
Definition mapValue (h : list (gmap string string)) (r : option loc) : gmap string string :=
  match r with
  | None => ∅
  | Some l => default ∅ (h !! l)
  end.

Definition mapIndex (h : list (gmap string string)) (r : option loc) (key : string) : string :=
  default "" (mapValue h r !! key).

(** [m[key] = v]: a write to the nil map panics. *)
Definition mapAssign (r : option loc) (key v : string) : M unit := λ w,
  match r with
  | None => (Panic "assignment to entry in nil map", w)
  | Some l =>
      (Ret tt,
       mkWorld (persistentVolumes w) (unschedulable w)
               (alter (insert key v) l (heap w)) (trace w))
  end.

(** Allocation of a map. *)
Definition newMap (m : gmap string string) : M loc := λ w,
  (Ret (length (heap w)),
   mkWorld (persistentVolumes w) (unschedulable w) (heap w ++ [m]) (trace w)).

(** [pv.DeepCopy()]: the annotations go to a map of their own; a nil map
    stays nil. *)
Definition DeepCopy (pv : corev1.PersistentVolume) : M corev1.PersistentVolume := λ w,
  match corev1.Annotations pv with
  | None => (Ret pv, w)
  | Some l =>
      (l' ← newMap (default ∅ (heap w !! l));
       mret {| corev1.Name := corev1.Name pv;
               corev1.Namespace := corev1.Namespace pv;
               corev1.Annotations := Some l' |}) w
  end.

(** Decoding of a listed object: the annotations are put in a fresh map; an
    object without annotations gets the nil map. *)
Definition decodePersistentVolume (obj : string * gmap string string)
  : M corev1.PersistentVolume :=
  if decide (obj.2 = ∅) then
    mret {| corev1.Name := obj.1; corev1.Namespace := ""; corev1.Annotations := None |}
  else
    l ← newMap obj.2;
    mret {| corev1.Name := obj.1; corev1.Namespace := ""; corev1.Annotations := Some l |}.

Fixpoint decodePersistentVolumes (objs : list (string * gmap string string))
  : M (list corev1.PersistentVolume) :=
  match objs with
  | [] => mret []
  | obj :: rest =>
      pv ← decodePersistentVolume obj;
      pvs ← decodePersistentVolumes rest;
      mret (pv :: pvs)
  end.

(** [client.MergeFrom(old)] against the new object, on the annotations: the
    keys whose value changed or appeared are set, the keys that disappeared
    are removed. *)
Definition mergeFrom (old new : gmap string string) : AnnotationPatch :=
  merge (λ o n, match n with
                | Some v => if decide (o = Some v) then None else Some (Some v)
                | None => match o with Some _ => Some None | None => None end
                end) old new.

(** The server applies a merge patch to the stored annotations. *)
Definition applyPatch (patch : AnnotationPatch) (live : gmap string string)
  : gmap string string :=
  merge (λ p l, match p with
                | Some (Some v) => Some v
                | Some None => None
                | None => l
                end) patch live.

Section Collaborators.

Variable env : Env.

(** [s.DynamicClient.List(ctx, &machines)] *)
Definition ListMachines : M (list Machine) :=
  t ← call EvListMachines;
  match listMachines env t with
  | inl e => fail e
  | inr items => mret items
  end.

(** [s.DynamicClient.List(ctx, &pvList, &client.ListOptions{})] *)
Definition ListPersistentVolumes : M (list corev1.PersistentVolume) :=
  t ← call EvListPersistentVolumes;
  match listPersistentVolumesErr env t with
  | Some e => fail e
  | None => λ w, decodePersistentVolumes (map_to_list (persistentVolumes w)) w
  end.

(** [s.DynamicClient.Get(ctx, key, &pod)] *)
Definition GetPod (namespace name : string) : M corev1.Pod :=
  t ← call (EvGetPod namespace name);
  match getPod env t namespace name with
  | inl e => fail e
  | inr pod => mret pod
  end.

(** [s.DynamicClient.Patch(ctx, obj, client.MergeFrom(old))]: the patch is
    the difference between [old] and [obj] as they are in memory when the
    call is made; the server applies it to the object it stores under that
    name.  The answer of the server, which the client decodes into [obj], is
    not read again by the tasks and is left out. *)
Definition Patch (obj old : corev1.PersistentVolume) : M unit := λ w,
  let patch := mergeFrom (mapValue (heap w) (corev1.Annotations old))
                         (mapValue (heap w) (corev1.Annotations obj)) in
  let t := length (trace w) in
  let tr := (trace w ++ [EvPatchPersistentVolume (corev1.Name obj) patch])%list in
  match patchErr env t (corev1.Name obj) with
  | Some e => (Fail e, mkWorld (persistentVolumes w) (unschedulable w) (heap w) tr)
  | None =>
      match persistentVolumes w !! corev1.Name obj with
      | None =>
          (Fail (errNew ("persistentvolumes " ++ quoted (corev1.Name obj) ++ " not found")),
           mkWorld (persistentVolumes w) (unschedulable w) (heap w) tr)
      | Some live =>
          (Ret tt,
           mkWorld (<[corev1.Name obj := applyPatch patch live]> (persistentVolumes w))
                   (unschedulable w) (heap w) tr)
      end
  end.

(** Modelled from the spec: the Node Drain Controller of [pkg/nodeutils],
    [Cordon(nodeName, desired)] marks the node unschedulable or schedulable
    again; a call that fails leaves the mark as it is. *)
Definition Cordon (node : string) (desired : bool) : M unit := λ w,
  let t := length (trace w) in
  let tr := (trace w ++ [EvCordon node desired])%list in
  match cordonErr env t node desired with
  | Some e => (Fail e, mkWorld (persistentVolumes w) (unschedulable w) (heap w) tr)
  | None =>
      (Ret tt,
       mkWorld (persistentVolumes w)
               (if desired then {[node]} ∪ unschedulable w else unschedulable w ∖ {[node]})
               (heap w) tr)
  end.

(** Modelled from the spec: [Drain(nodeName)] evicts the pods of the node
    and fails or succeeds. *)
Definition Drain (node : string) : M unit :=
  t ← call (EvDrain node);
  match drainErr env t node with
  | Some e => fail e
  | None => mret tt
  end.

(** [s.Runner.RunRaw(cmd)] *)
Definition RunRaw (cmd : string) : M (string * string) :=
  t ← call (EvRunRaw cmd);
  match runRaw env t cmd with
  | (_, _, Some e) => fail e
  | (stdout, stderr, None) => mret (stdout, stderr)
  end.

(** [systemdStatus(conn, unit)], declared outside the sources embedded
    here: one read of the status bits of a unit over the connection of the
    node. *)
Definition systemdStatus (unit_name : string) : M Z :=
  t ← call (EvSystemdStatus unit_name);
  match systemdStatusOf env t unit_name with
  | (_, Some e) => fail e
  | (status, None) => mret status
  end.

End Collaborators.

(** ** [pkg/scripts]: the commands run on a control plane node *)

Module scripts.

(** The templates, as [heredoc.Doc] leaves them. *)
Definition ccmMigrationRegenerateControlPlaneManifests : string :=
"sudo kubeadm {{ .VERBOSE }} init phase control-plane apiserver \
	--config={{ .WORK_DIR }}/cfg/master_{{ .NODE_ID }}.yaml

sudo kubeadm {{ .VERBOSE }} init phase control-plane controller-manager \
	--config={{ .WORK_DIR }}/cfg/master_{{ .NODE_ID }}.yaml
".

Definition ccmMigrationUpdateKubeletConfig : string :=
"sudo kubeadm {{ .VERBOSE }} init phase kubelet-start \
	--config={{ .WORK_DIR }}/cfg/master_{{ .NODE_ID }}.yaml
".

Section Scripts.

Variable env : Env.

Definition CCMMigrationRegenerateControlPlaneManifests
    (workdir : string) (nodeID : Z) (verboseFlag : string) : string * option error :=
  Render env ccmMigrationRegenerateControlPlaneManifests
    [ ("WORK_DIR", DataString workdir);
      ("NODE_ID", DataInt nodeID);
      ("VERBOSE", DataString verboseFlag) ].

Definition CCMMigrationUpdateKubeletConfig
    (workdir : string) (nodeID : Z) (verboseFlag : string) : string * option error :=
  Render env ccmMigrationUpdateKubeletConfig
    [ ("WORK_DIR", DataString workdir);
      ("NODE_ID", DataInt nodeID);
      ("VERBOSE", DataString verboseFlag) ].

End Scripts.

End scripts.

(** ** The tasks of [pkg/tasks/ccm_csi_migration.go] *)

Definition provisionedByAnnotation : string := "pv.kubernetes.io/provisioned-by".
Definition provisionedByOpenStackInTreeCinder : string := "kubernetes.io/cinder".
Definition provisionedByOpenStackCSICinder : string := "cinder.csi.openstack.org".

(** The connection to a node ([ssh.Connection]); the answers of the node come
    from the environment. *)
Inductive Connection : Type := mkConnection.

(** [x, err := f(); if err != nil { return err }] on a call that does not
    leave the process. *)
Definition orReturn {A} (r : A * option error) : M A :=
  match r with
  | (_, Some e) => fail e
  | (a, None) => mret a
  end.

Section Tasks.

Variable env : Env.

(** From the machine-controller module, outside the sources embedded
    here: the kubelet flags a machine declares, and the name of the flag of
    the external cloud provider. *)
Variable GetKubeletFlags : Machine -> gmap string string.
Variable ExternalCloudProviderKubeletFlag : string.

(** The status bits [state.SystemDStatusRunning] and
    [state.SystemDStatusRestarting], declared outside the sources embedded
    here. *)
Variable SystemDStatusRunning : Z.
Variable SystemDStatusRestarting : Z.

(** The loop of [readyToCompleteMigration] over [machines.Items]: the
    value of [migrated] when the loop is left. *)
Fixpoint machinesMigrated (items : list Machine) : bool :=
  match items with
  | [] => true
  | m :: rest =>
      let flag := default "" (GetKubeletFlags m !! ExternalCloudProviderKubeletFlag) in
      let '(boolFlag, err) := ParseBool flag in
      if negb boolFlag || bool_decide (is_Some err) then false
      else machinesMigrated rest
  end.

Definition readyToCompleteMigration (s : State) : M unit :=
  match DynamicClient s with
  | None => fail (errNew "clientset not initialized")
  | Some _ =>
      machines ← wrapErr "failed to list machines" (ListMachines env);
      let migrated := machinesMigrated machines in
      if negb migrated then
        fail (errNew "not all machines are rolled-out or migration not started yet")
      else mret tt
  end.

(** The loop over [pod.Status.Conditions] in the condition of
    [waitForStaticPodReady]: [false] when an entry makes the condition
    return not ready, [true] when the loop runs to its end. *)
Fixpoint conditionsReady (conds : list corev1.PodCondition) : bool :=
  match conds with
  | [] => true
  | cond :: rest =>
      if bool_decide (corev1.Type_ cond = corev1.PodReady)
         && bool_decide (corev1.Status cond ≠ corev1.ConditionTrue) then false
      else if bool_decide (corev1.Type_ cond = corev1.ContainersReady)
              && bool_decide (corev1.Status cond ≠ corev1.ConditionTrue) then false
      else conditionsReady rest
  end.

(** The condition polled by [waitForStaticPodReady]. *)
Definition staticPodCondition (staticPodName staticPodNamespace : string) : M bool := λ w,
  match GetPod env staticPodNamespace staticPodName w with
  | (Fail _, w') => (Ret false, w')
  | (Panic msg, w') => (Panic msg, w')
  | (Ret pod, w') =>
      if bool_decide (corev1.Phase (corev1.Status_ pod) ≠ corev1.PodRunning) then
        (Ret false, w')
      else if negb (conditionsReady (corev1.Conditions (corev1.Status_ pod))) then
        (Ret false, w')
      else (Ret true, w')
  end.

Definition waitForStaticPodReady (s : State) (timeout : Z)
    (staticPodName staticPodNamespace : string) : M unit :=
  match DynamicClient s with
  | None => fail (errNew "clientset not initialized")
  | Some _ =>
      if bool_decide (staticPodName = "") || bool_decide (staticPodNamespace = "") then
        fail (errNew "static pod name and namespace are required")
      else
        wait.PollImmediate (5 * time.Second) timeout
          (staticPodCondition staticPodName staticPodNamespace)
  end.

Definition regenerateControlPlaneManifestsInternal
    (s : State) (node : HostConfig) (conn : Connection) : M unit :=
  let apiserverPodName := "kube-apiserver-" ++ Hostname node in
  let controllerManagerPodName := "kube-controller-manager-" ++ Hostname node in
  cmd ← orReturn (scripts.CCMMigrationRegenerateControlPlaneManifests env
                    (WorkDir s) (ID node) (KubeadmVerboseFlag env s));
  _ ← RunRaw env cmd;
  let timeout := (30 * time.Second)%Z in
  _ ← time.Sleep timeout;
  let timeout := (2 * time.Minute)%Z in
  _ ← wrapErr ("API server failed to come up for " ++ time.String timeout)
        (waitForStaticPodReady s timeout apiserverPodName metav1.NamespaceSystem);
  _ ← wrapErr ("API server failed to come up for " ++ time.String timeout)
        (waitForStaticPodReady s timeout controllerManagerPodName metav1.NamespaceSystem);
  mret tt.

(** The condition polled by [updateKubeletConfigInternal]. *)
Definition kubeletCondition (conn : Connection) : M bool :=
  kubeletStatus ← systemdStatus env "kubelet";
  if bool_decide (Z.land kubeletStatus SystemDStatusRunning ≠ 0%Z)
     && bool_decide (Z.land kubeletStatus SystemDStatusRestarting = 0%Z) then mret true
  else mret false.

Definition updateKubeletConfigInternal
    (s : State) (node : HostConfig) (conn : Connection) : M unit :=
  _ ← wrapErr "failed to cordon follower control plane node"
        (Cordon env (Hostname node) true);
  _ ← wrapErr "failed to drain follower control plane node"
        (Drain env (Hostname node));
  cmd ← orReturn (scripts.CCMMigrationUpdateKubeletConfig env
                    (WorkDir s) (ID node) (KubeadmVerboseFlag env s));
  _ ← RunRaw env cmd;
  _ ← wait.PollImmediate (5 * time.Second) (2 * time.Minute) (kubeletCondition conn);
  _ ← wrapErr "failed to uncordon follower control plane node"
        (Cordon env (Hostname node) false);
  mret tt.

(** The message of the [Wrapf] around a failed patch. *)
Definition patchFailure (name : string) : string :=
  "failed to patch persistnetvolume " ++ quoted name ++ " with annotation " ++
  dquote ++ provisionedByAnnotation ++ "=" ++ provisionedByOpenStackCSICinder ++ dquote.

(** The loop of [migrateOpenStackPVs]: [range] is what is left of
    [Items] from index [i] on; [pv] is the copy of the element, and the
    object handed to [Patch] is [&pvList.Items[i]]. *)
Fixpoint migrateLoop (s : State) (Items : list corev1.PersistentVolume) (i : nat)
    (range : list corev1.PersistentVolume) : M unit :=
  match range with
  | [] => mret tt
  | pv :: rest =>
      _ ← (λ w,
           if bool_decide (mapIndex (heap w) (corev1.Annotations pv) provisionedByAnnotation
                           = provisionedByOpenStackInTreeCinder) then
             (oldPv ← DeepCopy pv;
              _ ← mapAssign (corev1.Annotations pv)
                    provisionedByAnnotation provisionedByOpenStackCSICinder;
              match Items !! i with
              | None => panic "index out of range"
              | Some item => wrapErr (patchFailure (corev1.Name pv)) (Patch env item oldPv)
              end) w
           else (Ret tt, w));
      migrateLoop s Items (S i) rest
  end.

Definition migrateOpenStackPVs (s : State) : M unit :=
  match DynamicClient s with
  | None => fail (errNew "dynamic client is not initialized")
  | Some _ =>
      pvList ← wrapErr "failed to list persistentvolumes" (ListPersistentVolumes env);
      migrateLoop s pvList 0 pvList
  end.

End Tasks.

(** ** Predicates used by the statements *)

Section GatePredicates.

Variable GetKubeletFlags : Machine -> gmap string string.
Variable ExternalCloudProviderKubeletFlag : string.

(** The value the loop reads for a machine. *)
Definition flagOf (m : Machine) : string :=
  default "" (GetKubeletFlags m !! ExternalCloudProviderKubeletFlag).

(** The flag is present and parses as boolean true. *)
Definition flagTrue (m : Machine) : Prop :=
  ∃ v, GetKubeletFlags m !! ExternalCloudProviderKubeletFlag = Some v
       ∧ ParseBool v = (true, None).

End GatePredicates.

(** The world after the calls [evs] were issued with no other effect. *)
Definition record (evs : list Event) (w : World) : World :=
  mkWorld (persistentVolumes w) (unschedulable w) (heap w) (trace w ++ evs).

(** What the static pod poller accepts: the phase is Running and no
    condition entry of type Ready or ContainersReady has a status other than
    True. *)
Definition podHealthy (pod : corev1.Pod) : Prop :=
  corev1.Phase (corev1.Status_ pod) = corev1.PodRunning
  ∧ ∀ cond, cond ∈ corev1.Conditions (corev1.Status_ pod) ->
            corev1.Type_ cond = corev1.PodReady ∨ corev1.Type_ cond = corev1.ContainersReady ->
            corev1.Status cond = corev1.ConditionTrue.

(** The fetch of the pod at call number [t] succeeds with a healthy pod. *)
Definition tickReady (env : Env) (namespace name : string) (t : nat) : Prop :=
  ∃ pod, getPod env t namespace name = inr pod ∧ podHealthy pod.

(** The same as booleans: what the condition of the poller computes from
    the answer to the fetch of call number [t]. *)
Definition podHealthyb (pod : corev1.Pod) : bool :=
  bool_decide (corev1.Phase (corev1.Status_ pod) = corev1.PodRunning)
  && conditionsReady (corev1.Conditions (corev1.Status_ pod)).

Definition tickVerdict (env : Env) (namespace name : string) (t : nat) : bool :=
  match getPod env t namespace name with
  | inl _ => false
  | inr pod => podHealthyb pod
  end.

(** What the condition of the kubelet poll computes from the answer to the
    status read of call number [t]. *)
Definition kubeletVerdict (env : Env) (SystemDStatusRunning SystemDStatusRestarting : Z)
    (t : nat) : result bool :=
  match systemdStatusOf env t "kubelet" with
  | (_, Some e) => Fail e
  | (status, None) =>
      Ret (bool_decide (Z.land status SystemDStatusRunning ≠ 0%Z)
           && bool_decide (Z.land status SystemDStatusRestarting = 0%Z))
  end.

(** The outcomes of [updateKubeletConfigInternal] from a world [w]: the
    value returned, the calls issued and the nodes left unschedulable, for
    each step that can end the function. *)
Section KubeletOutcome.

Variable env : Env.
Variable SystemDStatusRunning SystemDStatusRestarting : Z.
Variable s : State.
Variable node : HostConfig.
Variable w : World.

Let h := Hostname node.
Let t0 := length (trace w).
Let rendered :=
  scripts.CCMMigrationUpdateKubeletConfig env (WorkDir s) (ID node) (KubeadmVerboseFlag env s).
Let verdict := kubeletVerdict env SystemDStatusRunning SystemDStatusRestarting.
Let status := EvSystemdStatus "kubelet".
Let ticks := Z.to_nat (2 * time.Minute / (5 * time.Second)).

Inductive KubeletOutcome : result unit -> list Event -> gset string -> Prop :=
| CordonFailed e :
    cordonErr env t0 h true = Some e ->
    KubeletOutcome (Fail (errWrap e "failed to cordon follower control plane node"))
      [EvCordon h true] (unschedulable w)
| DrainFailed e :
    cordonErr env t0 h true = None ->
    drainErr env (t0 + 1) h = Some e ->
    KubeletOutcome (Fail (errWrap e "failed to drain follower control plane node"))
      [EvCordon h true; EvDrain h] ({[h]} ∪ unschedulable w)
| RenderFailed e :
    cordonErr env t0 h true = None ->
    drainErr env (t0 + 1) h = None ->
    rendered.2 = Some e ->
    KubeletOutcome (Fail e) [EvCordon h true; EvDrain h] ({[h]} ∪ unschedulable w)
| RunFailed e :
    cordonErr env t0 h true = None ->
    drainErr env (t0 + 1) h = None ->
    rendered.2 = None ->
    (runRaw env (t0 + 2) rendered.1).2 = Some e ->
    KubeletOutcome (Fail e) [EvCordon h true; EvDrain h; EvRunRaw rendered.1]
      ({[h]} ∪ unschedulable w)
| StatusReadFailed k e :
    cordonErr env t0 h true = None ->
    drainErr env (t0 + 1) h = None ->
    rendered.2 = None ->
    (runRaw env (t0 + 2) rendered.1).2 = None ->
    (k ≤ ticks)%nat ->
    (∀ j, (j < k)%nat -> verdict (t0 + 3 + j)%nat = Ret false) ->
    verdict (t0 + 3 + k)%nat = Fail e ->
    KubeletOutcome (Fail e)
      ([EvCordon h true; EvDrain h; EvRunRaw rendered.1] ++ replicate (S k) status)
      ({[h]} ∪ unschedulable w)
| PollTimedOut :
    cordonErr env t0 h true = None ->
    drainErr env (t0 + 1) h = None ->
    rendered.2 = None ->
    (runRaw env (t0 + 2) rendered.1).2 = None ->
    (∀ j, (j ≤ ticks)%nat -> verdict (t0 + 3 + j)%nat = Ret false) ->
    KubeletOutcome (Fail wait.ErrWaitTimeout)
      ([EvCordon h true; EvDrain h; EvRunRaw rendered.1] ++ replicate (S ticks) status)
      ({[h]} ∪ unschedulable w)
| UncordonFailed k e :
    cordonErr env t0 h true = None ->
    drainErr env (t0 + 1) h = None ->
    rendered.2 = None ->
    (runRaw env (t0 + 2) rendered.1).2 = None ->
    (k ≤ ticks)%nat ->
    (∀ j, (j < k)%nat -> verdict (t0 + 3 + j)%nat = Ret false) ->
    verdict (t0 + 3 + k)%nat = Ret true ->
    cordonErr env (t0 + 3 + S k) h false = Some e ->
    KubeletOutcome (Fail (errWrap e "failed to uncordon follower control plane node"))
      ([EvCordon h true; EvDrain h; EvRunRaw rendered.1] ++ replicate (S k) status
       ++ [EvCordon h false])
      ({[h]} ∪ unschedulable w)
| Reconfigured k :
    cordonErr env t0 h true = None ->
    drainErr env (t0 + 1) h = None ->
    rendered.2 = None ->
    (runRaw env (t0 + 2) rendered.1).2 = None ->
    (k ≤ ticks)%nat ->
    (∀ j, (j < k)%nat -> verdict (t0 + 3 + j)%nat = Ret false) ->
    verdict (t0 + 3 + k)%nat = Ret true ->
    cordonErr env (t0 + 3 + S k) h false = None ->
    KubeletOutcome (Ret tt)
      ([EvCordon h true; EvDrain h; EvRunRaw rendered.1] ++ replicate (S k) status
       ++ [EvCordon h false])
      (({[h]} ∪ unschedulable w) ∖ {[h]}).

End KubeletOutcome.

(** ** The Persistent Volume Annotator as the specification describes it *)

(** The provisioner annotation is the in-tree Cinder identifier. *)
Definition inTreeCinder (annotations : gmap string string) : Prop :=
  annotations !! provisionedByAnnotation = Some provisionedByOpenStackInTreeCinder.

(** The annotations after the rewrite to the CSI identifier. *)
Definition rewritten (annotations : gmap string string) : gmap string string :=
  <[provisionedByAnnotation := provisionedByOpenStackCSICinder]> annotations.

(** The annotations of a volume once the annotator has passed. *)
Definition migrated (annotations : gmap string string) : gmap string string :=
  if decide (inTreeCinder annotations) then rewritten annotations else annotations.

(** The merge patch that sets the provisioner annotation to the CSI
    identifier and touches nothing else. *)
Definition csiPatch : AnnotationPatch :=
  {[ provisionedByAnnotation := Some provisionedByOpenStackCSICinder ]}.

Definition patchCall (obj : string * gmap string string) : Event :=
  EvPatchPersistentVolume obj.1 csiPatch.

(** The listed volumes the annotator patches, in the order of the list. *)
Definition targets (objs : list (string * gmap string string))
  : list (string * gmap string string) :=
  filter (λ obj, inTreeCinder obj.2) objs.

(** The store after the volumes [objs] were patched. *)
Definition patched (store : gmap string (gmap string string))
    (objs : list (string * gmap string string)) : gmap string (gmap string string) :=
  foldl (λ st obj, <[obj.1 := rewritten obj.2]> st) store objs.

(** For each listed volume whose provisioner annotation is the in-tree
    Cinder identifier, in order: one patch call that rewrites the annotation;
    the first patch error ends the pass with that error wrapped with the name
    of the volume.  The result is the value returned, the patch calls issued
    and the store left; [t] is the number of calls issued before. *)
Fixpoint annotate (env : Env) (objs : list (string * gmap string string)) (t : nat)
    (store : gmap string (gmap string string))
  : result unit * list Event * gmap string (gmap string string) :=
  match objs with
  | [] => (Ret tt, [], store)
  | obj :: rest =>
      if decide (inTreeCinder obj.2) then
        match patchErr env t obj.1 with
        | Some e => (Fail (errWrap e (patchFailure obj.1)), [patchCall obj], store)
        | None =>
            let '(r, evs, store') :=
              annotate env rest (S t) (<[obj.1 := rewritten obj.2]> store) in
            (r, patchCall obj :: evs, store')
        end
      else annotate env rest t store
  end.

(** The whole operation: the precondition on the client, the list call, then
    the pass over the listed volumes. *)
Definition MigratePersistentVolumes (env : Env) (s : State) (w : World)
  : result unit * list Event * gmap string (gmap string string) :=
  match DynamicClient s with
  | None => (Fail (errNew "dynamic client is not initialized"), [], persistentVolumes w)
  | Some _ =>
      match listPersistentVolumesErr env (length (trace w)) with
      | Some e =>
          (Fail (errWrap e "failed to list persistentvolumes"),
           [EvListPersistentVolumes], persistentVolumes w)
      | None =>
          let '(r, evs, store') :=
            annotate env (map_to_list (persistentVolumes w))
                     (S (length (trace w))) (persistentVolumes w) in
          (r, EvListPersistentVolumes :: evs, store')
      end
  end.

(** A decoded volume [pv] stands for the stored object [obj] in the heap
    [h]. *)
Definition represents (h : list (gmap string string)) (pv : corev1.PersistentVolume)
    (obj : string * gmap string string) : Prop :=
  corev1.Name pv = obj.1
  ∧ match corev1.Annotations pv with
    | None => obj.2 = ∅
    | Some l => h !! l = Some obj.2
    end.


(** ** Scenarios *)

Definition emptyWorld : World := mkWorld ∅ ∅ [] [].

Definition healthyPod (name : string) : corev1.Pod :=
  {| corev1.PodName := name;
     corev1.PodNamespace := metav1.NamespaceSystem;
     corev1.Status_ :=
       {| corev1.Phase := corev1.PodRunning;
          corev1.Conditions :=
            [ {| corev1.Type_ := corev1.PodReady; corev1.Status := corev1.ConditionTrue |};
              {| corev1.Type_ := corev1.ContainersReady;
                 corev1.Status := corev1.ConditionTrue |} ] |} |}.

(** Every collaborator answers without error; the renderer returns the
    template as it is; the kubelet is running (bit 16) from the first read
    on. *)
Definition quietEnv : Env :=
  {| listMachines := λ _, inr [];
     listPersistentVolumesErr := λ _, None;
     getPod := λ _ _ name, inr (healthyPod name);
     patchErr := λ _ _, None;
     cordonErr := λ _ _ _, None;
     drainErr := λ _ _, None;
     runRaw := λ _ _, ("", "", None);
     systemdStatusOf := λ _ _, (16%Z, None);
     Render := λ template _, (template, None);
     KubeadmVerboseFlag := λ _, "" |}.




Definition openstackProvider : CloudProviderSpec :=
  {| External := true; CloudConfig := ""; CSIConfig := "";
     AWS := None; Azure := None; DigitalOcean := None; GCE := None; Hetzner := None;
     Openstack := Some mkOpenstackSpec; Packet := None; Vsphere := None;
     NoneProvider := None |}.

Definition controlPlaneNode : HostConfig :=
  {| ID := 0; PublicAddress := "192.0.2.10"; PrivateAddress := "10.0.0.10";
     Hostname := "cp1"; IsLeader := true |}.

Definition workerNode : HostConfig :=
  {| ID := 1; PublicAddress := "192.0.2.20"; PrivateAddress := "10.0.0.20";
     Hostname := "worker1"; IsLeader := false |}.

Definition migrationState (staticWorkers : list HostConfig) : State :=
  {| Cluster := {| kubeoneapi.Name := "demo";
                   CloudProvider := openstackProvider;
                   StaticWorkers := {| Hosts := staticWorkers |} |};
     LiveCluster := {| CCMStatus := {| InTreeCloudProviderEnabled := true;
                                            ExternalCCMDeployed := false |} |};
     CCMMigrationComplete := false;
     DynamicClient := Some mkClient;
     Verbose := false;
     WorkDir := "./kubeone" |}.





(** A machine that declares the value [v] for the flag of the external
    cloud provider, and one that declares no flag. *)
Definition flaggedMachine (name v : string) : Machine :=
  {| MachineName := name; MachineAnnotations := {[ "ExternalCloudProvider" := v ]} |}.

Definition plainMachine (name : string) : Machine :=
  {| MachineName := name; MachineAnnotations := ∅ |}.

(** As [quietEnv], with two machines listed: one rolled out, one not. *)
Definition halfRolledOutEnv : Env :=
  {| listMachines := λ _, inr [flaggedMachine "md-1" "true"; flaggedMachine "md-2" "false"];
     listPersistentVolumesErr := listPersistentVolumesErr quietEnv;
     getPod := getPod quietEnv;
     patchErr := patchErr quietEnv;
     cordonErr := cordonErr quietEnv;
     drainErr := drainErr quietEnv;
     runRaw := runRaw quietEnv;
     systemdStatusOf := systemdStatusOf quietEnv;
     Render := Render quietEnv;
     KubeadmVerboseFlag := KubeadmVerboseFlag quietEnv |}.

(** Two volumes provisioned by the in-tree driver and one by the CSI
    driver. *)
Definition threeVolumes : gmap string (gmap string string) :=
  <["pv-a" := {[ provisionedByAnnotation := provisionedByOpenStackInTreeCinder ]}]>
  (<["pv-b" := {[ provisionedByAnnotation := provisionedByOpenStackInTreeCinder ]}]>
   {[ "pv-c" := {[ provisionedByAnnotation := provisionedByOpenStackCSICinder ]} ]}).

Definition threeVolumesWorld : World := mkWorld threeVolumes ∅ [] [].

(** A volume without annotations. *)
Definition unannotatedWorld : World := mkWorld {[ "pv-x" := ∅ ]} ∅ [] [].

Definition threeVolumesRun : result unit * World :=
  migrateOpenStackPVs quietEnv (migrationState []) threeVolumesWorld.

Definition threeVolumesRerun : result unit * World :=
  migrateOpenStackPVs quietEnv (migrationState []) threeVolumesRun.2.

(** The run state with the flag of the "complete" phase set to
    [complete]. *)
Definition withComplete (complete : bool) (s : State) : State :=
  {| Cluster := Cluster s;
     LiveCluster := LiveCluster s;
     CCMMigrationComplete := complete;
     DynamicClient := DynamicClient s;
     Verbose := Verbose s;
     WorkDir := WorkDir s |}.

(** The run state of [migrationState] without a client. *)
Definition noClientState : State :=
  {| Cluster := Cluster (migrationState []);
     LiveCluster := LiveCluster (migrationState []);
     CCMMigrationComplete := false;
     DynamicClient := None;
     Verbose := false;
     WorkDir := "./kubeone" |}.

(** As [quietEnv], but every cordon or uncordon call is refused. *)
Definition cordonRefusedEnv : Env :=
  {| listMachines := listMachines quietEnv;
     listPersistentVolumesErr := listPersistentVolumesErr quietEnv;
     getPod := getPod quietEnv;
     patchErr := patchErr quietEnv;
     cordonErr := λ _ _ _, Some (errNew "nodes is forbidden");
     drainErr := drainErr quietEnv;
     runRaw := runRaw quietEnv;
     systemdStatusOf := systemdStatusOf quietEnv;
     Render := Render quietEnv;
     KubeadmVerboseFlag := KubeadmVerboseFlag quietEnv |}.

(** As [quietEnv], but the call number 1, the first patch on a fresh trace,
    meets a conflict. *)
Definition firstPatchConflictEnv : Env :=
  {| listMachines := listMachines quietEnv;
     listPersistentVolumesErr := listPersistentVolumesErr quietEnv;
     getPod := getPod quietEnv;
     patchErr := λ t _, if (t =? 1)%nat then Some (errNew "conflict") else None;
     cordonErr := cordonErr quietEnv;
     drainErr := drainErr quietEnv;
     runRaw := runRaw quietEnv;
     systemdStatusOf := systemdStatusOf quietEnv;
     Render := Render quietEnv;
     KubeadmVerboseFlag := KubeadmVerboseFlag quietEnv |}.


(** The annotator over [threeVolumes], stopped by a conflict at its first
    patch, and run again. *)
Definition interruptedRun : result unit * World :=
  migrateOpenStackPVs firstPatchConflictEnv (migrationState []) threeVolumesWorld.

Definition resumedRun : result unit * World :=
  migrateOpenStackPVs firstPatchConflictEnv (migrationState []) interruptedRun.2.

(** * Properties *)

(** Unfolds the sequencing of the monad. *)
Ltac unfold_M :=
  unfold mbind, M_bind, mret, M_ret, fail, panic, call, wrapErr, orReturn in *.

Lemma issued_app (w w' : World) (evs : list Event) :
  trace w' = (trace w ++ evs)%list -> issued w w' = evs.
Proof.
  intros H. unfold issued. rewrite H. by rewrite drop_app_length.
Qed.

(** ** The start validation *)

Lemma firstFailure_None (checks : list (bool * error)) :
  firstFailure checks = None <-> Forall (λ c, c.1 = true) checks.
Proof.
  induction checks as [|[ok e] rest IH]; simpl.
  - split; [constructor | done].
  - destruct ok; simpl.
    + rewrite IH. split; [by constructor | by inversion 1].
    + split; [done | inversion 1; simplify_eq/=].
Qed.

Lemma firstFailure_Some (checks : list (bool * error)) (e : error) :
  firstFailure checks = Some e <->
  ∃ k, checks !! k = Some (false, e) ∧ ∀ j c, (j < k)%nat -> checks !! j = Some c -> c.1 = true.
Proof.
  induction checks as [|[ok e'] rest IH]; simpl.
  - split; [done | by intros (k & Hk & _)].
  - destruct ok.
    + rewrite IH. split.
      * intros (k & Hk & Hlt). exists (S k). split; [done|].
        intros [|j] c Hj Hc; simplify_eq/=; [done|]. eapply Hlt; [|done]. lia.
      * intros ([|k] & Hk & Hlt); simplify_eq/=. exists k. split; [done|].
        intros j c Hj Hc. apply (Hlt (S j) c); [lia | done].
    + split.
      * intros [= ->]. exists 0%nat. split; [done | intros; lia].
      * intros ([|k] & Hk & Hlt); simplify_eq/=; [done|].
        specialize (Hlt 0%nat (false, e') ltac:(lia) eq_refl). done.
Qed.

(** C1: for every configuration, live status and run state the validator is
    the in-order evaluation of the six checks (external provider enabled, CSI
    migration supported, in-tree provider enabled on the live cluster, not
    (external CCM deployed and run not complete), vSphere implies a CSI
    configuration, no static worker host): it returns the error of the first
    check that fails, every check before that one holding; it returns nil
    exactly when the six checks hold; and a state with a static worker host
    never validates. *)
Theorem validateExternalCloudProviderConfig_checks
    (CSIMigrationSupported : CloudProviderSpec -> bool) (s : State) :
  validateExternalCloudProviderConfig CSIMigrationSupported s
    = firstFailure (ValidateStart_checks CSIMigrationSupported s)
  ∧ (∀ e, validateExternalCloudProviderConfig CSIMigrationSupported s = Some e <->
          ∃ k, ValidateStart_checks CSIMigrationSupported s !! k = Some (false, e)
               ∧ ∀ j c, (j < k)%nat ->
                        ValidateStart_checks CSIMigrationSupported s !! j = Some c ->
                        c.1 = true)
  ∧ (validateExternalCloudProviderConfig CSIMigrationSupported s = None <->
     Forall (λ c, c.1 = true) (ValidateStart_checks CSIMigrationSupported s))
  ∧ (Hosts (StaticWorkers (Cluster s)) ≠ [] ->
     validateExternalCloudProviderConfig CSIMigrationSupported s ≠ None).
Proof.
  assert (Heq : validateExternalCloudProviderConfig CSIMigrationSupported s
                = firstFailure (ValidateStart_checks CSIMigrationSupported s)).
  { unfold validateExternalCloudProviderConfig, ValidateStart_checks; simpl.
    destruct (External _); simpl; [|done].
    destruct (CSIMigrationSupported _); simpl; [|done].
    destruct (InTreeCloudProviderEnabled _); simpl; [|done].
    destruct (ExternalCCMDeployed _ && negb _); simpl; [done|].
    destruct (bool_decide (is_Some _)); simpl.
    - destruct (bool_decide (CSIConfig _ = "")); simpl; [done|].
      destruct (Hosts _); simpl; done.
    - destruct (Hosts _); simpl; done. }
  split; [done|]. split; [|split].
  - intros e. rewrite Heq. apply firstFailure_Some.
  - rewrite Heq. apply firstFailure_None.
  - intros Hhosts Hnil. rewrite Heq in Hnil. apply firstFailure_None in Hnil.
    unfold ValidateStart_checks in Hnil.
    do 5 (apply Forall_cons in Hnil as [_ Hnil]).
    apply Forall_cons in Hnil as [Hlast _]. simpl in Hlast.
    by apply bool_decide_eq_true in Hlast.
Qed.

(** ** The completion gate *)


Lemma ParseBool_true_fst (str : string) :
  (ParseBool str).1 = true -> ParseBool str = (true, None).
Proof.
  unfold ParseBool. repeat case_bool_decide; naive_solver.
Qed.

Section Gate.

Variable GetKubeletFlags : Machine -> gmap string string.
Variable ExternalCloudProviderKubeletFlag : string.

Local Abbreviation flagOf := (flagOf GetKubeletFlags ExternalCloudProviderKubeletFlag).
Local Abbreviation flagTrue := (flagTrue GetKubeletFlags ExternalCloudProviderKubeletFlag).

Lemma flagTrue_flagOf (m : Machine) :
  flagTrue m <-> ParseBool (flagOf m) = (true, None).
Proof.
  unfold flagTrue, flagOf. split.
  - intros (v & -> & Hv). done.
  - destruct (GetKubeletFlags m !! _) as [v|]; simpl; [eauto|].
    intros Hp. by vm_compute in Hp.
Qed.

Lemma machinesMigrated_cons (m : Machine) (rest : list Machine) :
  machinesMigrated GetKubeletFlags ExternalCloudProviderKubeletFlag (m :: rest)
  = bool_decide (ParseBool (flagOf m) = (true, None))
    && machinesMigrated GetKubeletFlags ExternalCloudProviderKubeletFlag rest.
Proof.
  simpl. fold (flagOf m).
  destruct (ParseBool (flagOf m)) as [b err] eqn:Hp.
  destruct b, err as [e|]; simpl; done.
Qed.

Lemma machinesMigrated_true (items : list Machine) :
  machinesMigrated GetKubeletFlags ExternalCloudProviderKubeletFlag items = true
  <-> Forall flagTrue items.
Proof.
  induction items as [|m rest IH].
  - split; [constructor | done].
  - rewrite machinesMigrated_cons, andb_true_iff, bool_decide_eq_true, IH,
      Forall_cons, flagTrue_flagOf. done.
Qed.

End Gate.


(** C2: [readyToCompleteMigration] returns nil exactly when the machines are
    listed without error and every listed machine has the flag, with a value
    that parses as true; when the list succeeds and some machine has no flag
    or a flag that does not parse as true, it returns the not-ready error;
    when the list fails, that error is returned wrapped after this one list
    call. *)
Theorem readyToCompleteMigration_gate
    (env : Env) (GetKubeletFlags : Machine -> gmap string string)
    (ExternalCloudProviderKubeletFlag : string) (s : State) (w : World) :
  let run := readyToCompleteMigration env GetKubeletFlags ExternalCloudProviderKubeletFlag s w in
  (run.1 = Ret tt <->
   is_Some (DynamicClient s)
   ∧ ∃ items, listMachines env (length (trace w)) = inr items
              ∧ Forall (flagTrue GetKubeletFlags ExternalCloudProviderKubeletFlag) items)
  ∧ (∀ items,
       is_Some (DynamicClient s) ->
       listMachines env (length (trace w)) = inr items ->
       Exists (λ m, GetKubeletFlags m !! ExternalCloudProviderKubeletFlag = None
                    ∨ (ParseBool (flagOf GetKubeletFlags ExternalCloudProviderKubeletFlag m)).1
                      = false) items ->
       run.1 = Fail (errNew "not all machines are rolled-out or migration not started yet")
       ∧ issued w run.2 = [EvListMachines])
  ∧ (∀ e,
       is_Some (DynamicClient s) ->
       listMachines env (length (trace w)) = inl e ->
       run.1 = Fail (errWrap e "failed to list machines")
       ∧ issued w run.2 = [EvListMachines]).
Proof.
  intros run. subst run. unfold readyToCompleteMigration, ListMachines.
  destruct (DynamicClient s) as [c|]; simpl.
  2: { split; [|split].
       - split; [done | by intros [[? [=]] _]].
       - by intros ? [? [=]].
       - by intros ? [? [=]]. }
  unfold_M. simpl.
  destruct (listMachines env (length (trace w))) as [e|items] eqn:Hlist; simpl.
  - split; [|split].
    + split; [done | by intros [_ (? & [=] & _)]].
    + by intros ? _ [=].
    + intros ? _ [= <-]. split; [done|]. by apply issued_app.
  - destruct (machinesMigrated _ _ items) eqn:Hmig; simpl.
    + apply machinesMigrated_true in Hmig. split; [|split].
      * split; [eauto 6|done].
      * intros ? _ [= <-] Hex. exfalso.
        apply Exists_exists in Hex as (m & Hin & Hbad).
        rewrite Forall_forall in Hmig. specialize (Hmig m Hin).
        pose proof Hmig as (v & Hv & Hp).
        apply flagTrue_flagOf in Hmig.
        destruct Hbad as [Hnone | Hfalse]; [congruence|].
        rewrite Hmig in Hfalse. done.
      * by intros ? _ [=].
    + split; [|split].
      * split; [done|]. intros [_ (? & [= <-] & Hall)].
        apply machinesMigrated_true in Hall. congruence.
      * intros ? _ _ _. split; [done|]. by apply issued_app.
      * by intros ? _ [=].
Qed.

(** ** Polling *)

Lemma record_nil (w : World) : record [] w = w.
Proof. destruct w. unfold record. simpl. by rewrite app_nil_r. Qed.

Lemma record_record (evs evs' : list Event) (w : World) :
  record evs' (record evs w) = record (evs ++ evs') w.
Proof. unfold record. simpl. by rewrite app_assoc. Qed.


Lemma length_trace_record (evs : list Event) (w : World) :
  length (trace (record evs w)) = (length (trace w) + length evs)%nat.
Proof. unfold record. simpl. by rewrite length_app. Qed.

(** A condition that issues one call [ev] per tick and whose verdict is a
    function [obs] of the number of that call: the poll stops at the first
    tick [k] whose verdict is not "not yet", or at the last tick. *)
Lemma poll_ticks (condition : M bool) (ev : Event) (obs : nat -> result bool) :
  (∀ w, condition w = (obs (length (trace w)), record [ev] w)) ->
  ∀ n w, ∃ k,
    (k ≤ n)%nat
    ∧ (∀ j, (j < k)%nat -> obs (length (trace w) + j)%nat = Ret false)
    ∧ (wait.poll n condition w).2 = record (replicate (S k) ev) w
    ∧ match obs (length (trace w) + k)%nat with
      | Ret true => (wait.poll n condition w).1 = Ret tt
      | Ret false => k = n ∧ (wait.poll n condition w).1 = Fail wait.ErrWaitTimeout
      | Fail e => (wait.poll n condition w).1 = Fail e
      | Panic msg => (wait.poll n condition w).1 = Panic msg
      end.
Proof.
  intros Htick n. induction n as [|n IH]; intros w.
  - exists 0%nat. rewrite Nat.add_0_r. simpl. rewrite Htick.
    split; [lia|]. split; [intros; lia|].
    destruct (obs (length (trace w))) as [[]| |]; simpl; done.
  - simpl. rewrite Htick.
    destruct (obs (length (trace w))) as [[]| |] eqn:Hobs; simpl.
    + exists 0%nat. rewrite Nat.add_0_r, Hobs. split; [lia|]. split; [intros; lia|]. done.
    + destruct (IH (record [ev] w)) as (k & Hk & Hbefore & Hworld & Hres).
      rewrite length_trace_record in Hbefore, Hres. simpl in Hbefore, Hres.
      exists (S k). split; [lia|]. split; [|split].
      * intros [|j] Hj; [by rewrite Nat.add_0_r|].
        replace (length (trace w) + S j)%nat with (length (trace w) + 1 + j)%nat by lia.
        apply Hbefore. lia.
      * rewrite Hworld, record_record. done.
      * replace (length (trace w) + S k)%nat with (length (trace w) + 1 + k)%nat by lia.
        destruct (obs (length (trace w) + 1 + k)%nat) as [[]| |]; try done.
        destruct Hres as [-> ?]. done.
    + exists 0%nat. rewrite Nat.add_0_r, Hobs. split; [lia|]. split; [intros; lia|]. done.
    + exists 0%nat. rewrite Nat.add_0_r, Hobs. split; [lia|]. split; [intros; lia|]. done.
Qed.

(** ** The static pod poller *)

Lemma conditionsReady_Forall (conds : list corev1.PodCondition) :
  conditionsReady conds = true <->
  Forall (λ cond, corev1.Type_ cond = corev1.PodReady
                  ∨ corev1.Type_ cond = corev1.ContainersReady ->
                  corev1.Status cond = corev1.ConditionTrue) conds.
Proof.
  induction conds as [|c rest IH]; simpl.
  - split; [constructor | done].
  - rewrite Forall_cons.
    destruct (decide (corev1.Status c = corev1.ConditionTrue)) as [Hs|Hs].
    + rewrite (bool_decide_eq_false_2 (corev1.Status c ≠ corev1.ConditionTrue)) by tauto.
      rewrite !andb_false_r, IH. tauto.
    + rewrite (bool_decide_eq_true_2 (corev1.Status c ≠ corev1.ConditionTrue)) by done.
      rewrite !andb_true_r.
      repeat case_bool_decide; rewrite ?IH; split; try done; tauto.
Qed.

Lemma conditionsReady_true (conds : list corev1.PodCondition) :
  conditionsReady conds = true <->
  ∀ cond, cond ∈ conds ->
          corev1.Type_ cond = corev1.PodReady ∨ corev1.Type_ cond = corev1.ContainersReady ->
          corev1.Status cond = corev1.ConditionTrue.
Proof. rewrite conditionsReady_Forall, Forall_forall. done. Qed.

Lemma podHealthyb_true (pod : corev1.Pod) : podHealthyb pod = true <-> podHealthy pod.
Proof.
  unfold podHealthyb, podHealthy.
  rewrite andb_true_iff, bool_decide_eq_true, conditionsReady_true. done.
Qed.

Lemma tickVerdict_true (env : Env) (namespace name : string) (t : nat) :
  tickVerdict env namespace name t = true <-> tickReady env namespace name t.
Proof.
  unfold tickVerdict, tickReady.
  destruct (getPod env t namespace name) as [e|pod].
  - split; [done | by intros (? & [=] & _)].
  - rewrite podHealthyb_true. split; [eauto|]. by intros (? & [= <-] & ?).
Qed.

(** The verdict of the condition of [waitForStaticPodReady] at a tick. *)
Lemma staticPodCondition_tick (env : Env) (name namespace : string) (w : World) :
  staticPodCondition env name namespace w
  = (Ret (tickVerdict env namespace name (length (trace w))),
     record [EvGetPod namespace name] w).
Proof.
  unfold staticPodCondition, GetPod, tickVerdict, podHealthyb. unfold_M. simpl.
  destruct (getPod env (length (trace w)) namespace name) as [e|pod]; simpl; [done|].
  destruct (decide (corev1.Phase (corev1.Status_ pod) = corev1.PodRunning)) as [Hp|Hp].
  - rewrite (bool_decide_eq_false_2 (_ ≠ _)) by tauto.
    rewrite (bool_decide_eq_true_2 _ Hp). simpl.
    by destruct (conditionsReady _).
  - rewrite (bool_decide_eq_true_2 (_ ≠ _)) by done.
    by rewrite (bool_decide_eq_false_2 _ Hp).
Qed.


(** ** The kubelet reconfiguration *)

Lemma kubeletCondition_tick (env : Env) (running restarting : Z) (conn : Connection)
    (w : World) :
  kubeletCondition env running restarting conn w
  = (kubeletVerdict env running restarting (length (trace w)),
     record [EvSystemdStatus "kubelet"] w).
Proof.
  unfold kubeletCondition, kubeletVerdict, systemdStatus. unfold_M. simpl.
  destruct (systemdStatusOf env (length (trace w)) "kubelet") as [status [e|]]; simpl; [done|].
  by destruct (_ && _).
Qed.

Lemma kubeletVerdict_no_panic (env : Env) (running restarting : Z) (t : nat) (msg : string) :
  kubeletVerdict env running restarting t ≠ Panic msg.
Proof.
  unfold kubeletVerdict. by destruct (systemdStatusOf env t "kubelet") as [status [e|]].
Qed.

(** Every run of [updateKubeletConfigInternal] ends in one of the outcomes
    of [KubeletOutcome]; it changes nothing but the trace and the
    unschedulable marks. *)
Lemma updateKubeletConfigInternal_outcome
    (env : Env) (running restarting : Z) (s : State) (node : HostConfig)
    (conn : Connection) (w : World) :
  let run := updateKubeletConfigInternal env running restarting s node conn w in
  ∃ evs us,
    run.2 = mkWorld (persistentVolumes w) us (heap w) (trace w ++ evs)
    ∧ KubeletOutcome env running restarting s node w run.1 evs us.
Proof.
  intros run. subst run. unfold updateKubeletConfigInternal, Cordon, Drain, RunRaw.
  unfold_M. simpl.
  destruct (cordonErr env (length (trace w)) (Hostname node) true) as [e|] eqn:Hc; simpl.
  { eexists _, _. split; [reflexivity|]. by constructor. }
  rewrite length_app. simpl.
  destruct (drainErr env (length (trace w) + 1) (Hostname node)) as [e|] eqn:Hd; simpl.
  { eexists _, _. split; [by rewrite <- app_assoc|]. by constructor. }
  destruct (scripts.CCMMigrationUpdateKubeletConfig env (WorkDir s) (ID node)
              (KubeadmVerboseFlag env s)) as [cmd [e|]] eqn:Hr; simpl.
  { eexists _, _. split; [by rewrite <- app_assoc|]. constructor; try done. by rewrite Hr. }
  rewrite !length_app. simpl.
  replace (length (trace w) + 1 + 1)%nat with (length (trace w) + 2)%nat by lia.
  destruct (runRaw env (length (trace w) + 2) cmd) as [[out err] [e|]] eqn:Hrun; simpl.
  { eexists _, _. split; [by rewrite <- !app_assoc|].
    replace cmd with (scripts.CCMMigrationUpdateKubeletConfig env (WorkDir s) (ID node)
              (KubeadmVerboseFlag env s)).1 by (by rewrite Hr).
    constructor; try done; rewrite Hr; simpl; by rewrite ?Hrun. }
  unfold wait.PollImmediate.
  match goal with |- context [wait.poll ?n ?c ?w0] =>
    destruct (poll_ticks c (EvSystemdStatus "kubelet")
                (kubeletVerdict env running restarting)
                (kubeletCondition_tick env running restarting conn) n w0)
      as (k & Hk & Hbefore & Hworld & Hres);
    destruct (wait.poll n c w0) as [r w4]
  end.
  simpl in Hbefore, Hworld, Hres. subst w4.
  rewrite !length_app in Hbefore, Hres. simpl in Hbefore, Hres.
  replace (length (trace w) + 1 + 1 + 1)%nat with (length (trace w) + 3)%nat in * by lia.
  assert (Hcmd : cmd = (scripts.CCMMigrationUpdateKubeletConfig env (WorkDir s) (ID node)
                          (KubeadmVerboseFlag env s)).1) by (by rewrite Hr).
  assert (Hr2 : (scripts.CCMMigrationUpdateKubeletConfig env (WorkDir s) (ID node)
                   (KubeadmVerboseFlag env s)).2 = None) by (by rewrite Hr).
  assert (Hrun2 : (runRaw env (length (trace w) + 2) cmd).2 = None) by (by rewrite Hrun).
  clear Hr Hrun. subst cmd.
  destruct (kubeletVerdict env running restarting (length (trace w) + 3 + k))
    as [[]|e|msg] eqn:Hv.
  - subst r. simpl.
    match goal with |- context [cordonErr env ?t (Hostname node) false] =>
      replace t with (length (trace w) + 3 + S k)%nat
        by (rewrite ?length_app; simpl; rewrite ?length_app, ?length_replicate; simpl; lia)
    end.
    destruct (cordonErr env (length (trace w) + 3 + S k) (Hostname node) false)
      as [e|] eqn:Hu; simpl.
    + eexists _, _. split; [by rewrite <- !app_assoc|]. simpl.
      by apply (UncordonFailed env running restarting s node w k e).
    + eexists _, _. split; [by rewrite <- !app_assoc|]. simpl.
      by apply (Reconfigured env running restarting s node w k).
  - destruct Hres as [-> ->]. unfold record. simpl.
    eexists _, _. split; [by rewrite <- !app_assoc|]. simpl.
    apply (PollTimedOut env running restarting s node w); try done.
    intros j Hj. apply Nat.lt_eq_cases in Hj as [Hlt | ->]; [by apply Hbefore | done].
  - subst r. unfold record. simpl.
    eexists _, _. split; [by rewrite <- !app_assoc|]. simpl.
    by apply (StatusReadFailed env running restarting s node w k e).
  - by apply kubeletVerdict_no_panic in Hv.
Qed.












(** ** The manifest regeneration *)

Lemma waitForStaticPodReady_outcome
    (env : Env) (s : State) (timeout : Z) (name namespace : string) (w : World) :
  is_Some (DynamicClient s) -> name ≠ "" -> namespace ≠ "" ->
  ∃ k, (waitForStaticPodReady env s timeout name namespace w).2
       = record (replicate (S k) (EvGetPod namespace name)) w
       ∧ ((waitForStaticPodReady env s timeout name namespace w).1 = Ret tt
          ∨ (waitForStaticPodReady env s timeout name namespace w).1
            = Fail wait.ErrWaitTimeout).
Proof.
  intros [c Hc] Hname Hns. unfold waitForStaticPodReady. rewrite Hc.
  rewrite !bool_decide_eq_false_2 by done. simpl.
  unfold wait.PollImmediate.
  destruct (poll_ticks (staticPodCondition env name namespace)
              (EvGetPod namespace name)
              (λ t, Ret (tickVerdict env namespace name t))
              (staticPodCondition_tick env name namespace)
              (Z.to_nat (timeout / (5 * time.Second))) w)
    as (k & Hk & Hbefore & Hworld & Hres).
  exists k. split; [done|].
  destruct (tickVerdict env namespace name (length (trace w) + k)); [by left|].
  right. by destruct Hres.
Qed.

(** Whichever of the two static pod polls fails, the error returned is the
    same: the timeout wrapped in the message about the API server. *)
Lemma regenerateControlPlaneManifestsInternal_poll_error
    (env : Env) (s : State) (node : HostConfig) (conn : Connection) (w : World) (e : error) :
  is_Some (DynamicClient s) ->
  (scripts.CCMMigrationRegenerateControlPlaneManifests env (WorkDir s) (ID node)
     (KubeadmVerboseFlag env s)).2 = None ->
  (runRaw env (length (trace w))
     (scripts.CCMMigrationRegenerateControlPlaneManifests env (WorkDir s) (ID node)
        (KubeadmVerboseFlag env s)).1).2 = None ->
  (regenerateControlPlaneManifestsInternal env s node conn w).1 = Fail e ->
  e = errWrap wait.ErrWaitTimeout "API server failed to come up for 2m0s".
Proof.
  intros Hclient Hrender Hrun.
  unfold regenerateControlPlaneManifestsInternal, RunRaw, time.Sleep.
  destruct (scripts.CCMMigrationRegenerateControlPlaneManifests env (WorkDir s) (ID node)
              (KubeadmVerboseFlag env s)) as [cmd [e'|]]; [done|].
  simpl in Hrun. unfold_M. simpl.
  destruct (runRaw env (length (trace w)) cmd) as [[out err] [e'|]]; [done|]. simpl.
  match goal with |- context [waitForStaticPodReady env s ?t ?n ?ns ?w0] =>
    destruct (waitForStaticPodReady_outcome env s t n ns w0 Hclient) as (k & Hw1 & Hr1);
      [done | done |];
    destruct (waitForStaticPodReady env s t n ns w0) as [r1 w1]
  end.
  simpl in Hw1, Hr1. destruct Hr1 as [-> | ->]; simpl; [|by intros [= <-]].
  match goal with |- context [waitForStaticPodReady env s ?t ?n ?ns ?w0] =>
    destruct (waitForStaticPodReady_outcome env s t n ns w0 Hclient) as (k2 & Hw2 & Hr2);
      [done | done |];
    destruct (waitForStaticPodReady env s t n ns w0) as [r2 w2]
  end.
  simpl in Hw2, Hr2. destruct Hr2 as [-> | ->]; simpl; [done | by intros [= <-]].
Qed.


(** ** The Persistent Volume Annotator *)

Lemma cinder_neq_csi : provisionedByOpenStackInTreeCinder ≠ provisionedByOpenStackCSICinder.
Proof. done. Qed.

Lemma mergeFrom_rewritten (a : gmap string string) :
  inTreeCinder a -> mergeFrom a (rewritten a) = csiPatch.
Proof.
  unfold inTreeCinder, mergeFrom, rewritten, csiPatch. intros Ha.
  apply map_eq. intros k. rewrite lookup_merge.
  destruct (decide (k = provisionedByAnnotation)) as [->|Hk].
  - rewrite Ha, lookup_insert_eq, lookup_singleton_eq. simpl.
    done.
  - rewrite lookup_insert_ne, lookup_singleton_ne by done.
    destruct (a !! k) as [v|]; simpl; [|done]. case_decide; done.
Qed.

Lemma applyPatch_csiPatch (a : gmap string string) :
  applyPatch csiPatch a = rewritten a.
Proof.
  unfold applyPatch, rewritten, csiPatch.
  apply map_eq. intros k. rewrite lookup_merge.
  destruct (decide (k = provisionedByAnnotation)) as [->|Hk].
  - rewrite lookup_singleton_eq, lookup_insert_eq. simpl.
    by destruct (a !! provisionedByAnnotation).
  - rewrite lookup_singleton_ne, lookup_insert_ne by done. simpl. by destruct (a !! k).
Qed.

Lemma mapIndex_represents (h : list (gmap string string)) (pv : corev1.PersistentVolume)
    (obj : string * gmap string string) :
  represents h pv obj ->
  mapIndex h (corev1.Annotations pv) provisionedByAnnotation
  = default "" (obj.2 !! provisionedByAnnotation).
Proof.
  intros [_ Hr]. unfold mapIndex, mapValue.
  destruct (corev1.Annotations pv) as [l|]; [by rewrite Hr | by rewrite Hr].
Qed.

Lemma inTreeCinder_default (a : gmap string string) :
  default "" (a !! provisionedByAnnotation) = provisionedByOpenStackInTreeCinder
  <-> inTreeCinder a.
Proof.
  unfold inTreeCinder. destruct (a !! provisionedByAnnotation) as [v|]; simpl.
  - split; [by intros -> | by intros [= ->]].
  - split; [done | done].
Qed.

(** Volumes stay represented when the heap changes only outside their
    maps. *)
Lemma represents_frame (h h2 : list (gmap string string))
    (pvs : list corev1.PersistentVolume) (objs : list (string * gmap string string)) :
  Forall2 (represents h) pvs objs ->
  (∀ pv l, pv ∈ pvs -> corev1.Annotations pv = Some l -> h2 !! l = h !! l) ->
  Forall2 (represents h2) pvs objs.
Proof.
  induction 1 as [|pv obj pvs objs [Hn Ha] HF IH]; intros Hsame; constructor.
  - split; [done|]. destruct (corev1.Annotations pv) as [l|] eqn:Hl; [|done].
    rewrite (Hsame pv l); [done | by left | done].
  - apply IH. intros pv' l' Hin. apply Hsame. by right.
Qed.

Lemma migrateLoop_annotate (env : Env) (s : State) (Items : list corev1.PersistentVolume) :
  ∀ (range : list corev1.PersistentVolume) (objs : list (string * gmap string string))
    (pre : list corev1.PersistentVolume) (w : World),
    Items = (pre ++ range)%list ->
    Forall2 (represents (heap w)) range objs ->
    NoDup (omap corev1.Annotations range) ->
    NoDup objs.*1 ->
    (∀ obj, obj ∈ objs -> persistentVolumes w !! obj.1 = Some obj.2) ->
    ∃ h',
      migrateLoop env s Items (length pre) range w
      = ((annotate env objs (length (trace w)) (persistentVolumes w)).1.1,
         mkWorld (annotate env objs (length (trace w)) (persistentVolumes w)).2
                 (unschedulable w) h'
                 (trace w ++ (annotate env objs (length (trace w)) (persistentVolumes w)).1.2)).
Proof.
  induction range as [|pv rest IH]; intros objs pre w HItems HF2 Hlocs Hnames Hstore.
  - apply Forall2_nil_inv_l in HF2 as ->. simpl. exists (heap w).
    rewrite app_nil_r. by destruct w.
  - apply Forall2_cons_inv_l in HF2 as (obj & objs' & Hrep & HF2 & ->).
    simpl migrateLoop. unfold_M.
    rewrite (mapIndex_represents _ _ _ Hrep).
    simpl annotate.
    destruct (decide (inTreeCinder obj.2)) as [Hc|Hc].
    + rewrite bool_decide_eq_true_2 by (by apply inTreeCinder_default).
      destruct Hrep as [Hname Hann].
      destruct (corev1.Annotations pv) as [l|] eqn:Hl.
      2: { rewrite Hann in Hc. unfold inTreeCinder in Hc. by rewrite lookup_empty in Hc. }
      unfold DeepCopy, mapAssign, newMap. rewrite Hl, Hann. simpl.
      assert (HItem : Items !! length pre = Some pv).
      { rewrite HItems. by apply list_lookup_middle. }
      rewrite HItem. unfold Patch. simpl. rewrite Hl. simpl.
      pose proof (lookup_lt_Some _ _ _ Hann) as Hlt.
      set (h2 := alter <[provisionedByAnnotation:=provisionedByOpenStackCSICinder]> l
                   (heap w ++ [obj.2])%list).
      assert (Hold : h2 !! length (heap w) = Some obj.2).
      { unfold h2. rewrite list_lookup_alter_ne by lia.
        rewrite lookup_app_r by lia. by rewrite Nat.sub_diag. }
      assert (Hnew : h2 !! l = Some (rewritten obj.2)).
      { unfold h2. rewrite list_lookup_alter_eq, lookup_app_l by done. by rewrite Hann. }
      rewrite Hold, Hnew. simpl. rewrite mergeFrom_rewritten by done. rewrite Hname.
      destruct (patchErr env (length (trace w)) obj.1) as [e|] eqn:Hp; simpl.
      * exists h2. done.
      * rewrite (Hstore obj) by left. simpl. rewrite applyPatch_csiPatch.
        set (w' := mkWorld (<[obj.1:=rewritten obj.2]> (persistentVolumes w))
                     (unschedulable w) h2 (trace w ++ [EvPatchPersistentVolume obj.1 csiPatch])).
        destruct (IH objs' (pre ++ [pv])%list w') as [h' Heq].
        { by rewrite <- app_assoc. }
        { simpl. simpl in Hlocs. rewrite Hl in Hlocs.
          apply NoDup_cons in Hlocs as [Hfresh _].
          apply (represents_frame (heap w)); [done|].
          intros pv' l' Hin Hl'.
          assert (l ≠ l').
          { intros ->. apply Hfresh. apply list_elem_of_omap. eauto. }
          unfold h2. rewrite list_lookup_alter_ne by done.
          destruct (decide (l' < length (heap w))%nat) as [Hlt'|Hge].
          - by rewrite lookup_app_l.
          - exfalso. clear -HF2 Hin Hl' Hge.
            induction HF2 as [|pv0 obj0 pvs0 objs0 [_ Ha0] _ IH0]; [by apply elem_of_nil in Hin|].
            apply elem_of_cons in Hin as [->|Hin]; [|by apply IH0].
            rewrite Hl' in Ha0. apply lookup_lt_Some in Ha0. lia. }
        { simpl in Hlocs. rewrite Hl in Hlocs. by apply NoDup_cons in Hlocs as [_ ?]. }
        { by apply NoDup_cons in Hnames as [_ ?]. }
        { intros obj' Hin. simpl.
          apply NoDup_cons in Hnames as [Hfresh _].
          rewrite lookup_insert_ne.
          - apply Hstore. by right.
          - intros Heq. apply Hfresh. rewrite Heq. by apply (list_elem_of_fmap_2 fst). }
        rewrite length_app, Nat.add_1_r in Heq. rewrite Heq. subst w'. simpl.
        rewrite length_app, Nat.add_1_r.
        exists h'.
        destruct (annotate env objs' (S (length (trace w)))
                    (<[obj.1:=rewritten obj.2]> (persistentVolumes w))) as [[r evs] st].
        simpl. by rewrite <- app_assoc.
    + rewrite bool_decide_eq_false_2 by (by rewrite inTreeCinder_default).
      destruct (IH objs' (pre ++ [pv])%list w) as [h' Heq].
      { by rewrite <- app_assoc. }
      { done. }
      { simpl in Hlocs. destruct (corev1.Annotations pv); [|done].
        by apply NoDup_cons in Hlocs as [_ ?]. }
      { by apply NoDup_cons in Hnames as [_ ?]. }
      { intros obj' Hin. apply Hstore. by right. }
      rewrite length_app, Nat.add_1_r in Heq. rewrite Heq. by exists h'.
Qed.

(** The list call decodes every stored object into a volume with a map of
    its own. *)
Lemma decodePersistentVolumes_represents (objs : list (string * gmap string string)) :
  ∀ w, ∃ pvs h',
    decodePersistentVolumes objs w
    = (Ret pvs, mkWorld (persistentVolumes w) (unschedulable w) (heap w ++ h') (trace w))
    ∧ Forall2 (represents (heap w ++ h')) pvs objs
    ∧ NoDup (omap corev1.Annotations pvs)
    ∧ (∀ l, l ∈ omap corev1.Annotations pvs -> (length (heap w) ≤ l)%nat).
Proof.
  induction objs as [|obj rest IH]; intros w.
  - exists [], []. simpl. rewrite app_nil_r. split; [by destruct w|].
    split; [constructor|]. split; [constructor|]. by intros l ?%elem_of_nil.
  - simpl. unfold decodePersistentVolume. unfold_M.
    destruct (decide (obj.2 = ∅)) as [Hempty|Hne].
    + destruct (IH w) as (pvs & h' & Heq & HF2 & Hnd & Hge). rewrite Heq.
      eexists (_ :: pvs), h'. split; [done|]. split; [|done].
      constructor; [|done]. split; done.
    + unfold newMap. simpl.
      set (w1 := mkWorld (persistentVolumes w) (unschedulable w) (heap w ++ [obj.2]) (trace w)).
      destruct (IH w1) as (pvs & h' & Heq & HF2 & Hnd & Hge). rewrite Heq.
      subst w1. simpl in *.
      eexists (_ :: pvs), ([obj.2] ++ h')%list. rewrite app_assoc.
      split; [done|]. split; [|split].
      * constructor; [|done]. split; [done|]. simpl.
        rewrite <- app_assoc. rewrite lookup_app_r by lia. by rewrite Nat.sub_diag.
      * simpl. apply NoDup_cons. split; [|done].
        intros Hin. apply Hge in Hin. rewrite length_app in Hin. simpl in Hin. lia.
      * simpl. intros l [->|Hin]%elem_of_cons; [lia|].
        apply Hge in Hin. rewrite length_app in Hin. lia.
Qed.

(** The code carries out the operation the specification describes: same
    value returned, same calls, same store; only the heap of the process
    differs. *)
Lemma migrateOpenStackPVs_refines (env : Env) (s : State) (w : World) :
  ∃ h',
    migrateOpenStackPVs env s w
    = ((MigratePersistentVolumes env s w).1.1,
       mkWorld (MigratePersistentVolumes env s w).2 (unschedulable w) h'
               (trace w ++ (MigratePersistentVolumes env s w).1.2)).
Proof.
  unfold migrateOpenStackPVs, MigratePersistentVolumes.
  destruct (DynamicClient s) as [c|].
  2: { exists (heap w). simpl. rewrite app_nil_r. by destruct w. }
  unfold ListPersistentVolumes. unfold_M. simpl.
  destruct (listPersistentVolumesErr env (length (trace w))) as [e|]; simpl.
  { by exists (heap w). }
  set (w1 := mkWorld (persistentVolumes w) (unschedulable w) (heap w)
               (trace w ++ [EvListPersistentVolumes])).
  destruct (decodePersistentVolumes_represents (map_to_list (persistentVolumes w)) w1)
    as (pvs & h1 & Heq & HF2 & Hnd & _).
  rewrite Heq. simpl.
  set (w2 := mkWorld (persistentVolumes w) (unschedulable w) (heap w ++ h1)
               (trace w ++ [EvListPersistentVolumes])).
  destruct (migrateLoop_annotate env s pvs pvs (map_to_list (persistentVolumes w)) [] w2)
    as [h' Hloop].
  { done. }
  { done. }
  { done. }
  { apply NoDup_fst_map_to_list. }
  { intros [n a] Hin. simpl. by apply elem_of_map_to_list. }
  simpl in Hloop. rewrite Hloop. subst w2. simpl.
  rewrite length_app, Nat.add_1_r.
  exists h'.
  destruct (annotate env (map_to_list (persistentVolumes w)) (S (length (trace w)))
              (persistentVolumes w)) as [[r evs] st].
  simpl. by rewrite <- app_assoc.
Qed.

(** *** The pass over the listed volumes *)



Lemma annotate_targets (env : Env) (objs : list (string * gmap string string)) :
  ∀ t store, annotate env objs t store = annotate env (targets objs) t store.
Proof.
  unfold targets. induction objs as [|obj rest IH]; intros t store; [done|].
  simpl. destruct (decide (inTreeCinder obj.2)) as [Hc|Hc].
  - rewrite filter_cons_True by done. simpl. rewrite decide_True by done.
    destruct (patchErr env t obj.1); [done|]. by rewrite IH.
  - rewrite filter_cons_False by done. apply IH.
Qed.




(** A pass that returns nil has patched every target. *)
Lemma annotate_Ret (env : Env) (objs : list (string * gmap string string)) :
  ∀ t store evs store',
    annotate env objs t store = (Ret tt, evs, store') ->
    evs = patchCall <$> targets objs ∧ store' = patched store (targets objs).
Proof.
  unfold targets. induction objs as [|obj rest IH]; intros t store evs store' Heq.
  - simpl in Heq. by simplify_eq.
  - simpl in Heq. destruct (decide (inTreeCinder obj.2)) as [Hc|Hc].
    + rewrite filter_cons_True by done.
      destruct (patchErr env t obj.1); [done|].
      destruct (annotate env rest (S t) _) as [[r evs'] st] eqn:Hrest.
      simplify_eq. apply IH in Hrest as [-> ->]. done.
    + rewrite filter_cons_False by done. by apply IH in Heq.
Qed.

Lemma annotate_no_panic (env : Env) (objs : list (string * gmap string string)) :
  ∀ t store msg, (annotate env objs t store).1.1 ≠ Panic msg.
Proof.
  induction objs as [|obj rest IH]; intros t store msg; [done|].
  simpl. destruct (decide (inTreeCinder obj.2)); [|apply IH].
  destruct (patchErr env t obj.1); [done|].
  specialize (IH (S t) (<[obj.1:=rewritten obj.2]> store) msg).
  by destruct (annotate env rest (S t) _) as [[r evs'] st].
Qed.

(** *** The store after the patches *)

Lemma patched_lookup (objs : list (string * gmap string string)) :
  ∀ (store : gmap string (gmap string string)) n,
    NoDup objs.*1 ->
    patched store objs !! n
    = match (list_to_map objs : gmap string (gmap string string)) !! n with
      | Some a => Some (rewritten a)
      | None => store !! n
      end.
Proof.
  unfold patched. induction objs as [|[n0 a0] rest IH]; intros store n Hnd; [done|].
  simpl in *. apply NoDup_cons in Hnd as [Hfresh Hnd]. rewrite IH by done.
  destruct (decide (n = n0)) as [->|Hne].
  - rewrite lookup_insert_eq. rewrite (not_elem_of_list_to_map_1 rest n0) by done.
    by rewrite lookup_insert_eq.
  - rewrite !lookup_insert_ne by done. done.
Qed.

Lemma NoDup_targets (objs : list (string * gmap string string)) :
  NoDup objs.*1 -> NoDup (targets objs).*1.
Proof.
  unfold targets. induction objs as [|obj rest IH]; intros Hnd; [done|].
  simpl in Hnd. apply NoDup_cons in Hnd as [Hfresh Hnd].
  destruct (decide (inTreeCinder obj.2)).
  - rewrite filter_cons_True by done. simpl. apply NoDup_cons. split; [|by apply IH].
    intros (o & Ho & Hin)%list_elem_of_fmap. apply list_elem_of_filter in Hin as [_ Hin].
    apply Hfresh. rewrite Ho. by apply (list_elem_of_fmap_2 fst).
  - rewrite filter_cons_False by done. by apply IH.
Qed.

(** Patching the targets of the list of a store rewrites every in-tree
    Cinder volume of the store and leaves the others as they are. *)
Lemma patched_targets (store : gmap string (gmap string string)) :
  patched store (targets (map_to_list store)) = migrated <$> store.
Proof.
  apply map_eq. intros n.
  rewrite patched_lookup by apply NoDup_targets, NoDup_fst_map_to_list.
  rewrite lookup_fmap.
  destruct (list_to_map (targets (map_to_list store)) !! n) as [a|] eqn:Hl.
  - apply elem_of_list_to_map in Hl; [|apply NoDup_targets, NoDup_fst_map_to_list].
    apply list_elem_of_filter in Hl as [Hc Hin]. apply elem_of_map_to_list in Hin.
    rewrite Hin. simpl. unfold migrated. by rewrite decide_True.
  - destruct (store !! n) as [a|] eqn:Hn; [|done]. simpl. unfold migrated.
    destruct (decide (inTreeCinder a)) as [Hc|Hc]; [|done].
    exfalso. apply not_elem_of_list_to_map in Hl. apply Hl.
    apply list_elem_of_fmap. exists (n, a). split; [done|].
    apply list_elem_of_filter. split; [done|]. by apply elem_of_map_to_list.
Qed.

Lemma migrated_not_inTreeCinder (a : gmap string string) : ¬ inTreeCinder (migrated a).
Proof.
  unfold migrated. destruct (decide (inTreeCinder a)) as [Hc|Hc]; [|done].
  unfold inTreeCinder, rewritten. rewrite lookup_insert_eq. by intros [=].
Qed.

(** Once the annotator has passed, no listed volume is a target. *)
Lemma targets_migrated (store : gmap string (gmap string string)) :
  targets (map_to_list (migrated <$> store)) = [].
Proof.
  unfold targets. apply elem_of_nil_inv. intros [n a] [Hc Hin]%list_elem_of_filter.
  apply elem_of_map_to_list in Hin. rewrite lookup_fmap in Hin.
  destruct (store !! n) as [a0|]; simplify_eq/=.
  by apply migrated_not_inTreeCinder in Hc.
Qed.

(** *** What the annotator does *)

Lemma migrateOpenStackPVs_run (env : Env) (s : State) (w : World) :
  (migrateOpenStackPVs env s w).1 = (MigratePersistentVolumes env s w).1.1
  ∧ issued w (migrateOpenStackPVs env s w).2 = (MigratePersistentVolumes env s w).1.2
  ∧ persistentVolumes (migrateOpenStackPVs env s w).2 = (MigratePersistentVolumes env s w).2
  ∧ unschedulable (migrateOpenStackPVs env s w).2 = unschedulable w.
Proof.
  destruct (migrateOpenStackPVs_refines env s w) as [h' ->]. simpl.
  split; [done|]. split; [by apply issued_app | done].
Qed.


Lemma filter_patch_calls (objs : list (string * gmap string string)) :
  filter (λ ev, is_patch ev = true) (EvListPersistentVolumes :: (patchCall <$> objs))
  = patchCall <$> objs.
Proof.
  rewrite filter_cons_False by done.
  induction objs as [|o l IH]; [done|].
  rewrite fmap_cons, filter_cons_True by done. by rewrite IH.
Qed.


Lemma annotate_events (env : Env) (objs : list (string * gmap string string)) :
  ∀ t store ev,
    ev ∈ (annotate env objs t store).1.2 ->
    ∃ obj, obj ∈ objs ∧ inTreeCinder obj.2 ∧ ev = patchCall obj.
Proof.
  induction objs as [|obj rest IH]; intros t store ev; simpl.
  - by intros ?%elem_of_nil.
  - destruct (decide (inTreeCinder obj.2)) as [Hc|Hc].
    + destruct (patchErr env t obj.1).
      * simpl. intros ->%list_elem_of_singleton. exists obj. split; [by left | done].
      * specialize (IH (S t) (<[obj.1:=rewritten obj.2]> store) ev).
        destruct (annotate env rest (S t) _) as [[r evs] st]. simpl in *.
        intros [->|Hin]%elem_of_cons.
        -- exists obj. split; [by left | done].
        -- destruct (IH Hin) as (o & ? & ? & ?). exists o. split; [by right | done].
    + intros Hin. destruct (IH _ _ _ Hin) as (o & ? & ? & ?).
      exists o. split; [by right | done].
Qed.

(** C7: when an invocation of [migrateOpenStackPVs] has returned nil, the
    store holds every volume rewritten to the CSI identifier, and an
    invocation that follows it issues no patch call and leaves the store as
    it is; it returns nil when its list call succeeds. *)
Theorem migrateOpenStackPVs_idempotent (env env' : Env) (s s' : State) (w : World) :
  let first := migrateOpenStackPVs env s w in
  let second := migrateOpenStackPVs env' s' first.2 in
  first.1 = Ret tt ->
  persistentVolumes first.2 = migrated <$> persistentVolumes w
  ∧ filter (λ ev, is_patch ev = true) (issued first.2 second.2) = []
  ∧ persistentVolumes second.2 = persistentVolumes first.2
  ∧ (is_Some (DynamicClient s') ->
     listPersistentVolumesErr env' (length (trace first.2)) = None ->
     second.1 = Ret tt).
Proof.
  cbv zeta. intros Hfirst.
  destruct (migrateOpenStackPVs_run env s w) as (Hr & _ & Hst & _).
  rewrite Hfirst in Hr.
  assert (Hstore : persistentVolumes (migrateOpenStackPVs env s w).2
                   = migrated <$> persistentVolumes w).
  { rewrite Hst. clear Hst. unfold MigratePersistentVolumes in *.
    destruct (DynamicClient s); [|done].
    destruct (listPersistentVolumesErr env (length (trace w))); [done|].
    destruct (annotate env (map_to_list (persistentVolumes w)) (S (length (trace w)))
                (persistentVolumes w)) as [[r evs] st] eqn:Hann.
    simpl in *. subst r. apply annotate_Ret in Hann as [_ ->].
    apply patched_targets. }
  split; [done|].
  destruct (migrateOpenStackPVs_run env' s' (migrateOpenStackPVs env s w).2)
    as (Hr2 & Hev2 & Hst2 & _).
  rewrite Hr2, Hev2, Hst2. clear Hr2 Hev2 Hst2.
  unfold MigratePersistentVolumes.
  destruct (DynamicClient s') as [c|]; [|split; [done|]; split; [done|]; by intros [? [=]]].
  destruct (listPersistentVolumesErr env' _) as [e|]; [done|].
  rewrite annotate_targets, Hstore, targets_migrated. simpl. done.
Qed.

(** C10: the read of the provisioner annotation on a nil map yields the
    empty string, so the loop passes over a volume without annotations with
    no patch call and no change; no patch call is ever issued for a stored
    volume without annotations; a store of such volumes is left as it is and
    the function returns nil; and the function never panics. *)
Theorem migrateOpenStackPVs_unannotated (env : Env) (s : State) :
  (∀ h key, mapIndex h None key = "")
  ∧ (∀ Items i pv rest w,
       corev1.Annotations pv = None ->
       migrateLoop env s Items i (pv :: rest) w = migrateLoop env s Items (S i) rest w)
  ∧ (∀ w n patch,
       persistentVolumes w !! n = Some ∅ ->
       EvPatchPersistentVolume n patch ∉ issued w (migrateOpenStackPVs env s w).2)
  ∧ (∀ w,
       is_Some (DynamicClient s) ->
       listPersistentVolumesErr env (length (trace w)) = None ->
       (∀ n a, persistentVolumes w !! n = Some a -> a = ∅) ->
       (migrateOpenStackPVs env s w).1 = Ret tt
       ∧ issued w (migrateOpenStackPVs env s w).2 = [EvListPersistentVolumes]
       ∧ persistentVolumes (migrateOpenStackPVs env s w).2 = persistentVolumes w)
  ∧ (∀ w msg, (migrateOpenStackPVs env s w).1 ≠ Panic msg).
Proof.
  split; [done|]. split; [|split; [|split]].
  - intros Items i pv rest w Hnil. simpl. unfold_M. rewrite Hnil. done.
  - intros w n patch Hn Hin.
    destruct (migrateOpenStackPVs_run env s w) as (_ & Hev & _ & _).
    rewrite Hev in Hin. clear Hev. unfold MigratePersistentVolumes in Hin.
    destruct (DynamicClient s); [|by apply elem_of_nil in Hin].
    destruct (listPersistentVolumesErr env (length (trace w))).
    { simpl in Hin. by apply list_elem_of_singleton in Hin. }
    pose proof (annotate_events env (map_to_list (persistentVolumes w))
                  (S (length (trace w))) (persistentVolumes w)
                  (EvPatchPersistentVolume n patch)) as Hsub.
    destruct (annotate env (map_to_list (persistentVolumes w)) (S (length (trace w)))
                (persistentVolumes w)) as [[r evs] st].
    simpl in *. apply elem_of_cons in Hin as [?|Hin]; [done|].
    destruct (Hsub Hin) as ([n' a] & Hlisted & Hc & Heq).
    unfold patchCall in Heq. simpl in *. simplify_eq.
    apply elem_of_map_to_list in Hlisted. rewrite Hn in Hlisted. simplify_eq.
    unfold inTreeCinder in Hc. by rewrite lookup_empty in Hc.
  - intros w [c Hclient] Hlist Hempty.
    destruct (migrateOpenStackPVs_run env s w) as (Hr & Hev & Hst & _).
    rewrite Hr, Hev, Hst. clear Hr Hev Hst.
    unfold MigratePersistentVolumes. rewrite Hclient, Hlist, annotate_targets.
    assert (Hnone : targets (map_to_list (persistentVolumes w)) = []).
    { apply elem_of_nil_inv. intros [n a] [Hc Hin]%list_elem_of_filter.
      apply elem_of_map_to_list in Hin. apply Hempty in Hin as ->.
      unfold inTreeCinder in Hc. simpl in Hc. by rewrite lookup_empty in Hc. }
    rewrite Hnone. done.
  - intros w msg.
    destruct (migrateOpenStackPVs_run env s w) as (Hr & _). rewrite Hr.
    unfold MigratePersistentVolumes.
    destruct (DynamicClient s); [|done].
    destruct (listPersistentVolumesErr env (length (trace w))); [done|].
    pose proof (annotate_no_panic env (map_to_list (persistentVolumes w))
                  (S (length (trace w))) (persistentVolumes w) msg) as Hnp.
    by destruct (annotate env (map_to_list (persistentVolumes w)) (S (length (trace w)))
                   (persistentVolumes w)) as [[r evs] st].
Qed.

(** ** The statements at work on the scenarios *)

(** A cluster with a static worker does not validate. *)
Lemma validateExternalCloudProviderConfig_checks_witness :
  Hosts (StaticWorkers (Cluster (migrationState [workerNode]))) ≠ []
  ∧ validateExternalCloudProviderConfig (λ _, true) (migrationState [workerNode]) ≠ None.
Proof.
  split; [discriminate|].
  apply (proj2 (proj2 (proj2
           (validateExternalCloudProviderConfig_checks (λ _, true)
              (migrationState [workerNode]))))).
  discriminate.
Defined.


(** With one machine whose flag is "false" the gate answers not ready, after
    one list call. *)
Lemma readyToCompleteMigration_gate_witness :
  is_Some (DynamicClient (migrationState []))
  ∧ (readyToCompleteMigration halfRolledOutEnv MachineAnnotations "ExternalCloudProvider"
       (migrationState []) emptyWorld).1
    = Fail (errNew "not all machines are rolled-out or migration not started yet")
  ∧ issued emptyWorld
      (readyToCompleteMigration halfRolledOutEnv MachineAnnotations "ExternalCloudProvider"
         (migrationState []) emptyWorld).2
    = [EvListMachines].
Proof.
  assert (Hclient : is_Some (DynamicClient (migrationState []))) by (by eexists).
  split; [exact Hclient|].
  apply (proj1 (proj2 (readyToCompleteMigration_gate halfRolledOutEnv MachineAnnotations
                         "ExternalCloudProvider" (migrationState []) emptyWorld))
           [flaggedMachine "md-1" "true"; flaggedMachine "md-2" "false"] Hclient eq_refl).
  apply Exists_cons_tl, Exists_cons_hd. right. reflexivity.
Defined.



(** The second run over [threeVolumes] patches nothing. *)
Lemma migrateOpenStackPVs_idempotent_witness :
  threeVolumesRun.1 = Ret tt
  ∧ filter (λ ev, is_patch ev = true) (issued threeVolumesRun.2 threeVolumesRerun.2) = []
  ∧ persistentVolumes threeVolumesRerun.2 = persistentVolumes threeVolumesRun.2.
Proof.
  assert (Hfirst : threeVolumesRun.1 = Ret tt) by (vm_compute; reflexivity).
  split; [exact Hfirst|].
  pose proof (migrateOpenStackPVs_idempotent quietEnv quietEnv (migrationState [])
                (migrationState []) threeVolumesWorld Hfirst) as H.
  split; [exact (proj1 (proj2 H)) | exact (proj1 (proj2 (proj2 H)))].
Defined.


(** A store whose only volume has no annotations. *)
Lemma migrateOpenStackPVs_unannotated_witness :
  persistentVolumes unannotatedWorld !! "pv-x" = Some ∅
  ∧ EvPatchPersistentVolume "pv-x" csiPatch
    ∉ issued unannotatedWorld
        (migrateOpenStackPVs quietEnv (migrationState []) unannotatedWorld).2.
Proof.
  assert (H : persistentVolumes unannotatedWorld !! "pv-x" = Some ∅)
    by (vm_compute; reflexivity).
  split; [exact H|].
  exact (proj1 (proj2 (proj2 (migrateOpenStackPVs_unannotated quietEnv (migrationState []))))
           unannotatedWorld "pv-x" csiPatch H).
Defined.

(** * Further properties of the tasks *)

(** ** The static pod poller: where it stops *)

(** With its preconditions met, the poller stops at a tick [k]: every tick
    before it was not ready; it returns nil when tick [k] is ready, and the
    timeout when [k] is the last tick and is not ready either.  It fetches
    the pod once per tick and changes nothing else. *)
Lemma waitForStaticPodReady_stops
    (env : Env) (s : State) (timeout : Z) (name namespace : string) (w : World) :
  is_Some (DynamicClient s) -> name ≠ "" -> namespace ≠ "" ->
  ∃ k, (k ≤ Z.to_nat (timeout / (5 * time.Second)))%nat
       ∧ (∀ j, (j < k)%nat -> tickVerdict env namespace name (length (trace w) + j) = false)
       ∧ (waitForStaticPodReady env s timeout name namespace w).2
         = record (replicate (S k) (EvGetPod namespace name)) w
       ∧ (if tickVerdict env namespace name (length (trace w) + k)
          then (waitForStaticPodReady env s timeout name namespace w).1 = Ret tt
          else k = Z.to_nat (timeout / (5 * time.Second))
               ∧ (waitForStaticPodReady env s timeout name namespace w).1
                 = Fail wait.ErrWaitTimeout).
Proof.
  intros [c Hc] Hname Hns. unfold waitForStaticPodReady. rewrite Hc.
  rewrite !bool_decide_eq_false_2 by done. simpl.
  unfold wait.PollImmediate.
  destruct (poll_ticks (staticPodCondition env name namespace)
              (EvGetPod namespace name)
              (λ t, Ret (tickVerdict env namespace name t))
              (staticPodCondition_tick env name namespace)
              (Z.to_nat (timeout / (5 * time.Second))) w)
    as (k & Hk & Hbefore & Hworld & Hres).
  exists k. split; [done|]. split.
  { intros j Hj. specialize (Hbefore j Hj). by simplify_eq. }
  split; [done|].
  by destruct (tickVerdict env namespace name (length (trace w) + k)).
Qed.

(** The first tick whose verdict is [true] is unique. *)
Lemma first_ready_unique (f : nat -> bool) (k k' : nat) :
  (∀ j, (j < k)%nat -> f j = false) -> f k = true ->
  (∀ j, (j < k')%nat -> f j = false) -> f k' = true ->
  k = k'.
Proof.
  intros Hb Hk Hb' Hk'.
  destruct (Nat.lt_trichotomy k k') as [Hlt|[->|Hlt]]; [|done|].
  - specialize (Hb' k Hlt). congruence.
  - specialize (Hb k' Hlt). congruence.
Qed.

(** X1: with a client, a pod name and a namespace, [waitForStaticPodReady]
    returns nil at the first tick whose fetch finds the pod healthy: it has
    fetched the pod once per tick up to that one, issues no fetch after it,
    and changes nothing else. *)
Theorem waitForStaticPodReady_returns_at_first_ready_tick
    (env : Env) (s : State) (timeout : Z) (name namespace : string) (w : World) (k : nat) :
  is_Some (DynamicClient s) -> name ≠ "" -> namespace ≠ "" ->
  (k ≤ Z.to_nat (timeout / (5 * time.Second)))%nat ->
  (∀ j, (j < k)%nat -> ¬ tickReady env namespace name (length (trace w) + j)) ->
  tickReady env namespace name (length (trace w) + k) ->
  waitForStaticPodReady env s timeout name namespace w
  = (Ret tt, record (replicate (S k) (EvGetPod namespace name)) w).
Proof.
  intros Hclient Hname Hns Hk Hbefore Hready.
  destruct (waitForStaticPodReady_stops env s timeout name namespace w Hclient Hname Hns)
    as (k' & Hk' & Hbefore' & Hworld & Hres).
  apply tickVerdict_true in Hready.
  assert (Hbefore_b : ∀ j, (j < k)%nat ->
            tickVerdict env namespace name (length (trace w) + j) = false).
  { intros j Hj. specialize (Hbefore j Hj). rewrite <- tickVerdict_true in Hbefore.
    by destruct (tickVerdict env namespace name (length (trace w) + j)). }
  destruct (tickVerdict env namespace name (length (trace w) + k')) eqn:Hv.
  - assert (k = k') as <-.
    { by apply (first_ready_unique
                  (λ j, tickVerdict env namespace name (length (trace w) + j))). }
    destruct (waitForStaticPodReady env s timeout name namespace w) as [r w'].
    simpl in *. by subst.
  - destruct Hres as [-> _]. exfalso.
    destruct (decide (k = Z.to_nat (timeout / (5 * time.Second)))) as [->|Hne];
      [congruence|].
    specialize (Hbefore' k ltac:(lia)). congruence.
Qed.

(** ** The manifest regeneration: every outcome *)

Lemma regenerate_message :
  "API server failed to come up for " ++ time.String (2 * time.Minute)
  = "API server failed to come up for 2m0s".
Proof. reflexivity. Qed.

Lemma regenerate_ticks : Z.to_nat (2 * time.Minute / (5 * time.Second)) = 24%nat.
Proof. reflexivity. Qed.

Lemma regenerateControlPlaneManifestsInternal_outcome
    (env : Env) (s : State) (node : HostConfig) (conn : Connection) (w : World) :
  let rendered :=
    scripts.CCMMigrationRegenerateControlPlaneManifests env (WorkDir s) (ID node)
      (KubeadmVerboseFlag env s) in
  let t0 := length (trace w) in
  let api := "kube-apiserver-" ++ Hostname node in
  let cm := "kube-controller-manager-" ++ Hostname node in
  let ns := metav1.NamespaceSystem in
  let msg := "API server failed to come up for 2m0s" in
  let started := [EvRunRaw rendered.1; EvSleep (30 * time.Second)] in
  let run := regenerateControlPlaneManifestsInternal env s node conn w in
  match rendered.2 with
  | Some e => run = (Fail e, w)
  | None =>
      match (runRaw env t0 rendered.1).2 with
      | Some e => run = (Fail e, record [EvRunRaw rendered.1] w)
      | None =>
          match DynamicClient s with
          | None =>
              run = (Fail (errWrap (errNew "clientset not initialized") msg),
                     record started w)
          | Some _ =>
              ∃ k1, (k1 ≤ 24)%nat
                ∧ (∀ j, (j < k1)%nat -> tickVerdict env ns api (t0 + 2 + j) = false)
                ∧ if tickVerdict env ns api (t0 + 2 + k1) then
                    ∃ k2, (k2 ≤ 24)%nat
                      ∧ (∀ j, (j < k2)%nat ->
                              tickVerdict env ns cm (t0 + 3 + k1 + j) = false)
                      ∧ if tickVerdict env ns cm (t0 + 3 + k1 + k2) then
                          run = (Ret tt,
                                 record (started ++ replicate (S k1) (EvGetPod ns api)
                                         ++ replicate (S k2) (EvGetPod ns cm))%list w)
                        else
                          k2 = 24%nat
                          ∧ run = (Fail (errWrap wait.ErrWaitTimeout msg),
                                   record (started ++ replicate (S k1) (EvGetPod ns api)
                                           ++ replicate (S k2) (EvGetPod ns cm))%list w)
                  else
                    k1 = 24%nat
                    ∧ run = (Fail (errWrap wait.ErrWaitTimeout msg),
                             record (started ++ replicate (S k1) (EvGetPod ns api))%list w)
          end
      end
  end.
Proof.
  cbv zeta.
  unfold regenerateControlPlaneManifestsInternal, RunRaw, time.Sleep.
  rewrite regenerate_message.
  destruct (scripts.CCMMigrationRegenerateControlPlaneManifests env (WorkDir s) (ID node)
              (KubeadmVerboseFlag env s)) as [cmd [e'|]]; [done|].
  unfold_M. simpl.
  destruct (runRaw env (length (trace w)) cmd) as [[out err] [e'|]]; simpl; [done|].
  destruct (DynamicClient s) as [c|] eqn:Hc.
  2: { unfold waitForStaticPodReady. rewrite Hc. unfold record. simpl.
       by rewrite <- app_assoc. }
  assert (Hclient : is_Some (DynamicClient s)) by (by eexists).
  assert (Hapi : "kube-apiserver-" ++ Hostname node ≠ "") by done.
  assert (Hcm : "kube-controller-manager-" ++ Hostname node ≠ "") by done.
  assert (Hns : metav1.NamespaceSystem ≠ "") by done.
  match goal with |- context [waitForStaticPodReady env s ?t ?n ?ns ?w0] =>
    destruct (waitForStaticPodReady_stops env s t n ns w0 Hclient Hapi Hns)
      as (k1 & Hk1 & Hb1 & Hw1 & Hr1);
    destruct (waitForStaticPodReady env s t n ns w0) as [r1 w1]
  end.
  rewrite regenerate_ticks in Hk1, Hr1.
  simpl in Hb1, Hw1, Hr1. rewrite !length_app in Hb1, Hr1. simpl in Hb1, Hr1.
  replace (length (trace w) + 1 + 1)%nat with (length (trace w) + 2)%nat in * by lia.
  exists k1. split; [done|]. split; [done|].
  destruct (tickVerdict env metav1.NamespaceSystem ("kube-apiserver-" ++ Hostname node)
              (length (trace w) + 2 + k1)) eqn:Hv1.
  2: { destruct Hr1 as [-> ->]. split; [done|]. subst w1. unfold record. simpl.
       by rewrite <- !app_assoc. }
  subst r1. simpl.
  match goal with |- context [waitForStaticPodReady env s ?t ?n ?ns ?w0] =>
    destruct (waitForStaticPodReady_stops env s t n ns w0 Hclient Hcm Hns)
      as (k2 & Hk2 & Hb2 & Hw2 & Hr2);
    destruct (waitForStaticPodReady env s t n ns w0) as [r2 w2]
  end.
  rewrite regenerate_ticks in Hk2, Hr2.
  simpl in Hb2, Hw2, Hr2. subst w1.
  rewrite length_trace_record in Hb2, Hr2. simpl in Hb2, Hr2.
  rewrite !length_app, length_replicate in Hb2, Hr2. simpl in Hb2, Hr2.
  replace (length (trace w) + 1 + 1 + S k1)%nat
    with (length (trace w) + 3 + k1)%nat in * by lia.
  exists k2. split; [done|]. split; [done|].
  destruct (tickVerdict env metav1.NamespaceSystem
              ("kube-controller-manager-" ++ Hostname node)
              (length (trace w) + 3 + k1 + k2)) eqn:Hv2.
  - subst r2 w2. simpl. unfold record. simpl. by rewrite <- !app_assoc.
  - destruct Hr2 as [-> ->]. split; [done|]. subst w2. simpl. unfold record. simpl.
    by rewrite <- !app_assoc.
Qed.


(** X2: [regenerateControlPlaneManifestsInternal] returns the error of the
    rendering as it is, before any call; the error of the run of the command
    as it is, with the command the only call issued; and with a nil client
    the command has been run and the 30 seconds waited before the error
    "clientset not initialized" comes back, wrapped in the message about the
    API server. *)
Theorem regenerateControlPlaneManifestsInternal_early_exit
    (env : Env) (s : State) (node : HostConfig) (conn : Connection) (w : World) :
  let rendered :=
    scripts.CCMMigrationRegenerateControlPlaneManifests env (WorkDir s) (ID node)
      (KubeadmVerboseFlag env s) in
  let run := regenerateControlPlaneManifestsInternal env s node conn w in
  (∀ e, rendered.2 = Some e -> run = (Fail e, w))
  ∧ (rendered.2 = None ->
     ∀ e, (runRaw env (length (trace w)) rendered.1).2 = Some e ->
          run = (Fail e, record [EvRunRaw rendered.1] w))
  ∧ (rendered.2 = None ->
     (runRaw env (length (trace w)) rendered.1).2 = None ->
     DynamicClient s = None ->
     run = (Fail (errWrap (errNew "clientset not initialized")
                    "API server failed to come up for 2m0s"),
            record [EvRunRaw rendered.1; EvSleep (30 * time.Second)] w)).
Proof.
  cbv zeta.
  pose proof (regenerateControlPlaneManifestsInternal_outcome env s node conn w) as H.
  cbv zeta in H.
  split; [|split].
  - intros e He. by rewrite He in H.
  - intros Hr e He. by rewrite Hr, He in H.
  - intros Hr Hrun Hc. by rewrite Hr, Hrun, Hc in H.
Qed.



(** ** The kubelet reconfiguration: success, and what guards each call *)


(** X6: when the cordon fails, [updateKubeletConfigInternal] returns its
    error wrapped and has issued no other call.  A command is run only after
    the cordon and the drain succeeded, and it is the rendered command; the
    kubelet status is read only after the run of the command succeeded.  The
    volumes and the memory are left as they were, and so is the
    unschedulable mark of every other node. *)
Theorem updateKubeletConfigInternal_guards
    (env : Env) (running restarting : Z) (s : State) (node : HostConfig)
    (conn : Connection) (w : World) :
  let h := Hostname node in
  let t0 := length (trace w) in
  let rendered :=
    scripts.CCMMigrationUpdateKubeletConfig env (WorkDir s) (ID node) (KubeadmVerboseFlag env s) in
  let run := updateKubeletConfigInternal env running restarting s node conn w in
  (∀ e, cordonErr env t0 h true = Some e ->
        run = (Fail (errWrap e "failed to cordon follower control plane node"),
               record [EvCordon h true] w))
  ∧ (∀ cmd, EvRunRaw cmd ∈ issued w run.2 ->
            cordonErr env t0 h true = None
            ∧ drainErr env (t0 + 1) h = None
            ∧ rendered = (cmd, None))
  ∧ (EvSystemdStatus "kubelet" ∈ issued w run.2 ->
     (runRaw env (t0 + 2) rendered.1).2 = None)
  ∧ persistentVolumes run.2 = persistentVolumes w
  ∧ heap run.2 = heap w
  ∧ (∀ n, n ≠ h -> n ∈ unschedulable run.2 <-> n ∈ unschedulable w).
Proof.
  cbv zeta.
  destruct (updateKubeletConfigInternal_outcome env running restarting s node conn w)
    as (evs & us & Hw & Hout).
  cbv zeta in Hw, Hout.
  destruct (updateKubeletConfigInternal env running restarting s node conn w) as [r w'].
  simpl in Hw, Hout. simpl fst. simpl snd.
  assert (Hissued : issued w w' = evs) by (rewrite Hw; by apply issued_app).
  rewrite Hissued. subst w'. simpl. clear Hissued.
  destruct (scripts.CCMMigrationUpdateKubeletConfig env (WorkDir s) (ID node)
              (KubeadmVerboseFlag env s)) as [cmd0 rerr] eqn:Hrendered.
  simpl in *.
  split; [|split; [|split; [|split; [done|split; [done|]]]]].
  - intros e He. inversion Hout; subst; try congruence.
    unfold record. repeat f_equal. congruence.
  - intros cmd Hin. inversion Hout; subst;
      repeat (rewrite ?elem_of_cons, ?elem_of_app, ?elem_of_nil in Hin);
      destruct_or?; simplify_eq; try done;
      try (by apply elem_of_replicate_inv in Hin).
    all: try (destruct Hin as [Hin|Hin]; [by apply elem_of_replicate_inv in Hin|];
              apply elem_of_cons in Hin as [?|Hin]; [done | by apply elem_of_nil in Hin]).
    all: split; [done|]; split; [done|]; rewrite Hrendered in *; simpl in *; congruence.
  - intros Hin. inversion Hout; subst; try done;
      repeat (rewrite ?elem_of_cons, ?elem_of_app, ?elem_of_nil in Hin);
      destruct_or?; simplify_eq; try done.
    all: by rewrite Hrendered in *.
  - intros n Hn. inversion Hout; subst;
      rewrite ?elem_of_difference, ?elem_of_union, ?elem_of_singleton; tauto.
Qed.

(** ** The start validation: what the error tells *)

(** X7: the flag of the "complete" phase changes the result of
    [validateExternalCloudProviderConfig] in one case only, where without it
    the error is "migration is currently in progress"; it is not looked at
    when the external CCM is not deployed; and a state that is valid without
    the flag is valid with it. *)
Theorem validateExternalCloudProviderConfig_complete_flag
    (CSIMigrationSupported : CloudProviderSpec -> bool) (s : State) :
  (validateExternalCloudProviderConfig CSIMigrationSupported (withComplete true s)
   = validateExternalCloudProviderConfig CSIMigrationSupported (withComplete false s)
   ∨ validateExternalCloudProviderConfig CSIMigrationSupported (withComplete false s)
     = Some (errNew "the ccm/csi migration is currently in progress, run command with --complete to finish it"))
  ∧ (ExternalCCMDeployed (CCMStatus (LiveCluster s)) = false ->
     ∀ complete,
       validateExternalCloudProviderConfig CSIMigrationSupported (withComplete complete s)
       = validateExternalCloudProviderConfig CSIMigrationSupported s)
  ∧ (validateExternalCloudProviderConfig CSIMigrationSupported (withComplete false s) = None ->
     validateExternalCloudProviderConfig CSIMigrationSupported (withComplete true s) = None).
Proof.
  unfold validateExternalCloudProviderConfig, withComplete. simpl.
  destruct (External _); simpl; [|by repeat split; auto].
  destruct (CSIMigrationSupported _); simpl; [|by repeat split; auto].
  destruct (InTreeCloudProviderEnabled _); simpl; [|by repeat split; auto].
  destruct (ExternalCCMDeployed _); simpl.
  - split; [by right|]. split; [done|]. done.
  - split; [by left|]. split; [|done]. by intros _ complete.
Qed.

Ltac validate_case :=
  repeat split; intros; destruct_and?; try discriminate; try done;
  intuition (try discriminate; try congruence).

(** X8: each error of [validateExternalCloudProviderConfig] is returned
    exactly when its check is the first that fails, so the message tells
    which condition of the state is violated and that all the earlier ones
    hold. *)
Theorem validateExternalCloudProviderConfig_error_identifies_check
    (CSIMigrationSupported : CloudProviderSpec -> bool) (s : State) :
  let cp := CloudProvider (Cluster s) in
  let live := CCMStatus (LiveCluster s) in
  let result := validateExternalCloudProviderConfig CSIMigrationSupported s in
  (result = Some (errNew ".cloudProvider.external must be enabled to start the migration")
   <-> External cp = false)
  ∧ (result = Some (errNew "ccm/csi migration is not supported for the specified provider")
     <-> External cp = true ∧ CSIMigrationSupported cp = false)
  ∧ (result = Some (errNew "the cluster is already running external ccm")
     <-> External cp = true ∧ CSIMigrationSupported cp = true
         ∧ InTreeCloudProviderEnabled live = false)
  ∧ (result = Some (errNew "the ccm/csi migration is currently in progress, run command with --complete to finish it")
     <-> External cp = true ∧ CSIMigrationSupported cp = true
         ∧ InTreeCloudProviderEnabled live = true
         ∧ ExternalCCMDeployed live = true ∧ CCMMigrationComplete s = false)
  ∧ (result = Some (errNew "the ccm/csi migration for vsphere requires providing csi configuration using .cloudProvider.csiConfig field")
     <-> External cp = true ∧ CSIMigrationSupported cp = true
         ∧ InTreeCloudProviderEnabled live = true
         ∧ (ExternalCCMDeployed live = true -> CCMMigrationComplete s = true)
         ∧ is_Some (Vsphere cp) ∧ CSIConfig cp = "")
  ∧ (result = Some (errNew "the ccm/csi migration for cluster with static worker nodes is currently unsupported")
     <-> External cp = true ∧ CSIMigrationSupported cp = true
         ∧ InTreeCloudProviderEnabled live = true
         ∧ (ExternalCCMDeployed live = true -> CCMMigrationComplete s = true)
         ∧ ¬ (is_Some (Vsphere cp) ∧ CSIConfig cp = "")
         ∧ Hosts (StaticWorkers (Cluster s)) ≠ []).
Proof.
  cbv zeta. unfold validateExternalCloudProviderConfig.
  pose proof (bool_decide_spec (is_Some (Vsphere (CloudProvider (Cluster s))))) as Hv.
  pose proof (bool_decide_spec (CSIConfig (CloudProvider (Cluster s)) = "")) as Hc.
  assert (Hh : bool_decide (0 < length (Hosts (StaticWorkers (Cluster s))))%nat = true
               <-> Hosts (StaticWorkers (Cluster s)) ≠ []).
  { rewrite bool_decide_eq_true. destruct (Hosts _); simpl; split; (done || lia). }
  destruct (External _); simpl; [|validate_case].
  destruct (CSIMigrationSupported _); simpl; [|validate_case].
  destruct (InTreeCloudProviderEnabled _); simpl; [|validate_case].
  destruct (ExternalCCMDeployed _), (CCMMigrationComplete s); simpl; try validate_case.
  all: destruct (bool_decide (is_Some _)), (bool_decide (CSIConfig _ = ""));
    simpl in *; try validate_case.
  all: destruct (bool_decide (0 < _)%nat); simpl in *; validate_case.
Qed.

(** ** The completion gate: what it reads and what it leaves alone *)

(** X9: [readyToCompleteMigration] leaves the volumes, the unschedulable
    marks and the memory as they were.  With a nil client it fails before
    any call; with a client it issues exactly one call, the listing of the
    machines, whatever the answer; and a cluster without machines passes the
    gate. *)
Theorem readyToCompleteMigration_read_only
    (env : Env) (GetKubeletFlags : Machine -> gmap string string)
    (ExternalCloudProviderKubeletFlag : string) (s : State) (w : World) :
  let run := readyToCompleteMigration env GetKubeletFlags ExternalCloudProviderKubeletFlag s w in
  persistentVolumes run.2 = persistentVolumes w
  ∧ unschedulable run.2 = unschedulable w
  ∧ heap run.2 = heap w
  ∧ (DynamicClient s = None -> run = (Fail (errNew "clientset not initialized"), w))
  ∧ (is_Some (DynamicClient s) -> issued w run.2 = [EvListMachines])
  ∧ (is_Some (DynamicClient s) -> listMachines env (length (trace w)) = inr [] ->
     run.1 = Ret tt).
Proof.
  cbv zeta. unfold readyToCompleteMigration, ListMachines.
  destruct (DynamicClient s) as [c|]; simpl.
  2: { repeat split; try done; by intros [? [=]]. }
  unfold_M. simpl.
  destruct (listMachines env (length (trace w))) as [e|items]; simpl.
  - repeat split; try done. intros _. by apply issued_app.
  - destruct (machinesMigrated _ _ items) eqn:Hm; simpl.
    + repeat split; try done. intros _. by apply issued_app.
    + repeat split; try done.
      * intros _. by apply issued_app.
      * intros _ [= ->]. done.
Qed.

(** X10: the loop of [readyToCompleteMigration] over the machines, with its
    [break], computes a conjunction: the verdict on two lists put together is
    the conjunction of the verdicts, and it does not depend on the order of
    the machines; so the gate returns the same for two listings that are
    permutations of each other. *)
Theorem machinesMigrated_order_insensitive
    (GetKubeletFlags : Machine -> gmap string string)
    (ExternalCloudProviderKubeletFlag : string) :
  (∀ l1 l2,
     machinesMigrated GetKubeletFlags ExternalCloudProviderKubeletFlag (l1 ++ l2)%list
     = machinesMigrated GetKubeletFlags ExternalCloudProviderKubeletFlag l1
       && machinesMigrated GetKubeletFlags ExternalCloudProviderKubeletFlag l2)
  ∧ (∀ l l', l ≡ₚ l' ->
       machinesMigrated GetKubeletFlags ExternalCloudProviderKubeletFlag l
       = machinesMigrated GetKubeletFlags ExternalCloudProviderKubeletFlag l')
  ∧ (∀ env env' s w items items',
       listMachines env (length (trace w)) = inr items ->
       listMachines env' (length (trace w)) = inr items' ->
       items ≡ₚ items' ->
       (readyToCompleteMigration env GetKubeletFlags ExternalCloudProviderKubeletFlag s w).1
       = (readyToCompleteMigration env' GetKubeletFlags ExternalCloudProviderKubeletFlag
            s w).1).
Proof.
  assert (Hperm : ∀ l l', l ≡ₚ l' ->
            machinesMigrated GetKubeletFlags ExternalCloudProviderKubeletFlag l
            = machinesMigrated GetKubeletFlags ExternalCloudProviderKubeletFlag l').
  { intros l l' Hperm. induction Hperm as [|m l l' _ IH|m1 m2 l|l l' l'' _ IH1 _ IH2].
    + done.
    + by rewrite !machinesMigrated_cons, IH.
    + rewrite !machinesMigrated_cons.
      by rewrite !andb_assoc, (andb_comm (bool_decide _)).
    + by rewrite IH1. }
  split; [|split; [exact Hperm|]].
  2: { intros env env' s w items items' Hl Hl' Hp.
       unfold readyToCompleteMigration, ListMachines.
       destruct (DynamicClient s); [|done]. unfold_M. simpl.
       rewrite Hl, Hl'. simpl. rewrite (Hperm _ _ Hp).
       by destruct (machinesMigrated _ _ items'). }
  intros l1 l2. induction l1 as [|m l1 IH]; [done|].
  rewrite <- app_comm_cons, !machinesMigrated_cons, IH. by rewrite andb_assoc.
Qed.

(** ** The Persistent Volume Annotator: what any run leaves behind *)

(** Whatever the outcome of the pass, a volume is left as it was or, when it
    carried the in-tree identifier, rewritten. *)
Lemma annotate_store (env : Env) (objs : list (string * gmap string string)) :
  ∀ t (store : gmap string (gmap string string)) n,
    NoDup objs.*1 ->
    (∀ obj, obj ∈ objs -> store !! obj.1 = Some obj.2) ->
    (annotate env objs t store).2 !! n = store !! n
    ∨ ∃ a, store !! n = Some a ∧ inTreeCinder a
           ∧ (annotate env objs t store).2 !! n = Some (rewritten a).
Proof.
  induction objs as [|obj rest IH]; intros t store n Hnd Hstore; [by left|].
  simpl in Hnd. apply NoDup_cons in Hnd as [Hfresh Hnd]. simpl.
  assert (Hrest : ∀ o, o ∈ rest -> store !! o.1 = Some o.2).
  { intros o Hin. apply Hstore. by right. }
  destruct (decide (inTreeCinder obj.2)) as [Hc|Hc]; [|by apply IH].
  destruct (patchErr env t obj.1); [by left|].
  specialize (IH (S t) (<[obj.1:=rewritten obj.2]> store) n Hnd).
  destruct (annotate env rest (S t) (<[obj.1:=rewritten obj.2]> store)) as [[r evs] st].
  simpl in *.
  destruct IH as [IH | (a & Ha & Hca & IH)].
  { intros o Hin. rewrite lookup_insert_ne; [by apply Hrest|].
    intros Heq. apply Hfresh. rewrite Heq. by apply (list_elem_of_fmap_2 fst). }
  - destruct (decide (n = obj.1)) as [->|Hne].
    + right. exists obj.2. split; [apply Hstore; by left|]. split; [done|].
      by rewrite IH, lookup_insert_eq.
    + left. by rewrite IH, lookup_insert_ne.
  - destruct (decide (n = obj.1)) as [->|Hne].
    + rewrite lookup_insert_eq in Ha. simplify_eq.
      exfalso. unfold inTreeCinder, rewritten in Hca.
      rewrite lookup_insert_eq in Hca. by simplify_eq.
    + rewrite lookup_insert_ne in Ha by done. right. eauto.
Qed.

Lemma migrateOpenStackPVs_store (env : Env) (s : State) (w : World) (n : string) :
  persistentVolumes (migrateOpenStackPVs env s w).2 !! n = persistentVolumes w !! n
  ∨ ∃ a, persistentVolumes w !! n = Some a ∧ inTreeCinder a
         ∧ persistentVolumes (migrateOpenStackPVs env s w).2 !! n = Some (rewritten a).
Proof.
  destruct (migrateOpenStackPVs_run env s w) as (_ & _ & Hst & _). rewrite Hst.
  unfold MigratePersistentVolumes.
  destruct (DynamicClient s); [|by left].
  destruct (listPersistentVolumesErr env (length (trace w))); [by left|].
  pose proof (annotate_store env (map_to_list (persistentVolumes w)) (S (length (trace w)))
                (persistentVolumes w) n (NoDup_fst_map_to_list _)) as H.
  destruct (annotate env (map_to_list (persistentVolumes w)) (S (length (trace w)))
              (persistentVolumes w)) as [[r evs] st].
  simpl in *. apply H. intros [n' a] Hin. by apply elem_of_map_to_list.
Qed.

(** A run that returns nil leaves the migrated store. *)
Lemma migrateOpenStackPVs_Ret_store (env : Env) (s : State) (w : World) :
  (migrateOpenStackPVs env s w).1 = Ret tt ->
  persistentVolumes (migrateOpenStackPVs env s w).2 = migrated <$> persistentVolumes w.
Proof.
  intros Hret.
  destruct (migrateOpenStackPVs_run env s w) as (Hr & _ & Hst & _).
  rewrite Hret in Hr. rewrite Hst. clear Hst. unfold MigratePersistentVolumes in *.
  destruct (DynamicClient s); [|done].
  destruct (listPersistentVolumesErr env (length (trace w))); [done|].
  destruct (annotate env (map_to_list (persistentVolumes w)) (S (length (trace w)))
              (persistentVolumes w)) as [[r evs] st] eqn:Hann.
  simpl in *. subst r. apply annotate_Ret in Hann as [_ ->].
  apply patched_targets.
Qed.

Lemma migrated_rewritten (a : gmap string string) :
  inTreeCinder a -> migrated (rewritten a) = migrated a.
Proof.
  intros Hc. unfold migrated at 2. rewrite decide_True by done.
  unfold migrated. rewrite decide_False; [done|].
  unfold inTreeCinder, rewritten. rewrite lookup_insert_eq. by intros [=].
Qed.

(** X11: whatever [migrateOpenStackPVs] returns, it creates and deletes no
    volume; a stored volume is left as it was or, when it carried the in-tree
    identifier, has its provisioner annotation rewritten; no other
    annotation key is touched; a volume without the in-tree identifier is
    left as it was; no node is cordoned. *)
Theorem migrateOpenStackPVs_conservative (env : Env) (s : State) (w : World) :
  let after := persistentVolumes (migrateOpenStackPVs env s w).2 in
  let before := persistentVolumes w in
  dom after = dom before
  ∧ (∀ n a', after !! n = Some a' ->
       ∃ a, before !! n = Some a
            ∧ (a' = a ∨ (inTreeCinder a ∧ a' = rewritten a))
            ∧ ∀ key, key ≠ provisionedByAnnotation -> a' !! key = a !! key)
  ∧ (∀ n a, before !! n = Some a -> ¬ inTreeCinder a -> after !! n = Some a)
  ∧ unschedulable (migrateOpenStackPVs env s w).2 = unschedulable w.
Proof.
  cbv zeta. split; [|split; [|split]].
  - apply set_eq. intros n. rewrite !elem_of_dom.
    destruct (migrateOpenStackPVs_store env s w n) as [-> | (a & Ha & _ & ->)]; [done|].
    rewrite Ha. split; by eexists.
  - intros n a' Ha'.
    destruct (migrateOpenStackPVs_store env s w n) as [Heq | (a & Ha & Hc & Heq)].
    + exists a'. rewrite <- Heq. split; [done|]. split; [by left | done].
    + rewrite Heq in Ha'. simplify_eq. exists a. split; [done|]. split; [by right|].
      intros key Hkey. unfold rewritten. by rewrite lookup_insert_ne.
  - intros n a Ha Hc.
    destruct (migrateOpenStackPVs_store env s w n) as [-> | (a0 & Ha0 & Hc0 & _)]; [done|].
    congruence.
  - by destruct (migrateOpenStackPVs_run env s w) as (_ & _ & _ & ?).
Qed.

(** X12: [migrateOpenStackPVs] can be resumed: whatever a first invocation
    returned, and however many volumes it patched before it stopped, a
    further invocation that returns nil leaves every volume of the original
    store migrated. *)
Theorem migrateOpenStackPVs_converges (env env' : Env) (s s' : State) (w : World) :
  let first := migrateOpenStackPVs env s w in
  let second := migrateOpenStackPVs env' s' first.2 in
  second.1 = Ret tt ->
  persistentVolumes second.2 = migrated <$> persistentVolumes w.
Proof.
  cbv zeta. intros Hret. rewrite (migrateOpenStackPVs_Ret_store _ _ _ Hret).
  apply map_eq. intros n. rewrite !lookup_fmap.
  destruct (migrateOpenStackPVs_store env s w n) as [-> | (a & Ha & Hc & ->)]; [done|].
  rewrite Ha. simpl. by rewrite migrated_rewritten.
Qed.

(** The patch calls of a pass are those of the first targets, in order. *)
Lemma annotate_calls (env : Env) (objs : list (string * gmap string string)) :
  ∀ t store, ∃ k,
    (annotate env objs t store).1.2 = patchCall <$> take k (targets objs).
Proof.
  unfold targets. induction objs as [|obj rest IH]; intros t store; [by exists 0%nat|].
  simpl. destruct (decide (inTreeCinder obj.2)) as [Hc|Hc].
  - rewrite filter_cons_True by done.
    destruct (patchErr env t obj.1); [by exists 1%nat|].
    destruct (IH (S t) (<[obj.1:=rewritten obj.2]> store)) as [k Hk].
    destruct (annotate env rest (S t) _) as [[r evs] st]. simpl in *.
    exists (S k). simpl. by rewrite Hk.
  - rewrite filter_cons_False by done. apply IH.
Qed.

(** X13: every patch call of [migrateOpenStackPVs] is for a stored volume
    that carried the in-tree identifier and sends the patch that sets the
    CSI identifier; no volume is patched twice; there are at most as many
    patch calls as volumes with the in-tree identifier. *)
Theorem migrateOpenStackPVs_patch_calls (env : Env) (s : State) (w : World) :
  let calls := filter (λ ev, is_patch ev = true) (issued w (migrateOpenStackPVs env s w).2) in
  (∀ ev, ev ∈ calls ->
     ∃ n a, ev = EvPatchPersistentVolume n csiPatch
            ∧ persistentVolumes w !! n = Some a ∧ inTreeCinder a)
  ∧ NoDup calls
  ∧ (length calls ≤ length (targets (map_to_list (persistentVolumes w))))%nat.
Proof.
  cbv zeta.
  destruct (migrateOpenStackPVs_run env s w) as (_ & Hev & _). rewrite Hev. clear Hev.
  unfold MigratePersistentVolumes.
  destruct (DynamicClient s).
  2: { simpl. split; [by intros ev ?%elem_of_nil|]. split; [constructor | lia]. }
  destruct (listPersistentVolumesErr env (length (trace w))).
  { simpl. rewrite filter_cons_False by done.
    split; [by intros ev ?%elem_of_nil|]. split; [constructor | simpl; lia]. }
  destruct (annotate_calls env (map_to_list (persistentVolumes w)) (S (length (trace w)))
              (persistentVolumes w)) as [k Hk].
  destruct (annotate env (map_to_list (persistentVolumes w)) (S (length (trace w)))
              (persistentVolumes w)) as [[r evs] st].
  simpl in *. subst evs. rewrite filter_patch_calls.
  set (tg := targets (map_to_list (persistentVolumes w))).
  split; [|split].
  - intros ev (obj & -> & Hin)%list_elem_of_fmap.
    apply elem_of_take in Hin as (i & Hin & _). apply list_elem_of_lookup_2 in Hin.
    apply list_elem_of_filter in Hin as [Hc Hin]. destruct obj as [n a].
    apply elem_of_map_to_list in Hin. by exists n, a.
  - apply NoDup_fmap_2_strong.
    + intros [n a] [n' a'] Hin Hin' [= ->].
      apply elem_of_take in Hin as (i & Hin & _). apply list_elem_of_lookup_2 in Hin.
      apply elem_of_take in Hin' as (i' & Hin' & _). apply list_elem_of_lookup_2 in Hin'.
      apply list_elem_of_filter in Hin as [_ Hin]. apply list_elem_of_filter in Hin' as [_ Hin'].
      apply elem_of_map_to_list in Hin, Hin'. simpl in *. congruence.
    + apply (sublist_NoDup _ tg); [|apply sublist_take].
      apply (NoDup_fmap_1 fst), NoDup_targets, NoDup_fst_map_to_list.
  - rewrite length_fmap, length_take. lia.
Qed.

(** X14: with a nil client [migrateOpenStackPVs] fails before any call.  With
    a client its first call is the listing of the volumes, which it issues
    once, and every later call is a patch. *)
Theorem migrateOpenStackPVs_lists_once (env : Env) (s : State) (w : World) :
  let run := migrateOpenStackPVs env s w in
  (DynamicClient s = None ->
   run = (Fail (errNew "dynamic client is not initialized"), w))
  ∧ (is_Some (DynamicClient s) ->
     ∃ calls, issued w run.2 = EvListPersistentVolumes :: calls
              ∧ Forall (λ ev, is_patch ev = true) calls).
Proof.
  cbv zeta. split.
  - intros Hc. unfold migrateOpenStackPVs. by rewrite Hc.
  - intros [c Hc].
    destruct (migrateOpenStackPVs_run env s w) as (_ & Hev & _). rewrite Hev. clear Hev.
    unfold MigratePersistentVolumes. rewrite Hc.
    destruct (listPersistentVolumesErr env (length (trace w))).
    { by exists []. }
    destruct (annotate_calls env (map_to_list (persistentVolumes w)) (S (length (trace w)))
                (persistentVolumes w)) as [k Hk].
    destruct (annotate env (map_to_list (persistentVolumes w)) (S (length (trace w)))
                (persistentVolumes w)) as [[r evs] st].
    simpl in *. subst evs. eexists. split; [done|].
    apply Forall_fmap, Forall_true. by intros [n a].
Qed.

(** ** Instances *)

(** On [quietEnv] every fetch finds the pod healthy. *)
Lemma quietEnv_ready (namespace name : string) (t : nat) :
  tickReady quietEnv namespace name t.
Proof.
  exists (healthyPod name). split; [reflexivity|]. split; [reflexivity|].
  intros cond Hin _.
  apply elem_of_cons in Hin as [->|Hin]; [reflexivity|].
  apply elem_of_cons in Hin as [->|Hin]; [reflexivity|].
  by apply elem_of_nil in Hin.
Qed.

Lemma waitForStaticPodReady_returns_at_first_ready_tick_witness :
  tickReady quietEnv metav1.NamespaceSystem "kube-apiserver-cp1" 0
  ∧ waitForStaticPodReady quietEnv (migrationState []) (2 * time.Minute)
      "kube-apiserver-cp1" metav1.NamespaceSystem emptyWorld
    = (Ret tt, record [EvGetPod metav1.NamespaceSystem "kube-apiserver-cp1"] emptyWorld).
Proof.
  split; [apply quietEnv_ready|].
  apply (waitForStaticPodReady_returns_at_first_ready_tick quietEnv (migrationState [])
           (2 * time.Minute) "kube-apiserver-cp1" metav1.NamespaceSystem emptyWorld 0).
  - by eexists.
  - discriminate.
  - discriminate.
  - apply Nat.le_0_l.
  - intros j Hj. lia.
  - apply quietEnv_ready.
Defined.

Lemma regenerateControlPlaneManifestsInternal_early_exit_witness :
  DynamicClient noClientState = None
  ∧ (regenerateControlPlaneManifestsInternal quietEnv noClientState controlPlaneNode
       mkConnection emptyWorld).1
    = Fail (errWrap (errNew "clientset not initialized")
              "API server failed to come up for 2m0s").
Proof.
  split; [reflexivity|].
  pose proof (proj2 (proj2 (regenerateControlPlaneManifestsInternal_early_exit quietEnv
                              noClientState controlPlaneNode mkConnection emptyWorld))
                eq_refl eq_refl eq_refl) as H.
  by rewrite H.
Defined.




Lemma updateKubeletConfigInternal_guards_witness :
  cordonErr cordonRefusedEnv 0 "cp1" true = Some (errNew "nodes is forbidden")
  ∧ updateKubeletConfigInternal cordonRefusedEnv 16 4 (migrationState []) controlPlaneNode
      mkConnection emptyWorld
    = (Fail (errWrap (errNew "nodes is forbidden")
               "failed to cordon follower control plane node"),
       record [EvCordon "cp1" true] emptyWorld).
Proof.
  split; [reflexivity|].
  exact (proj1 (updateKubeletConfigInternal_guards cordonRefusedEnv 16 4 (migrationState [])
                  controlPlaneNode mkConnection emptyWorld)
           (errNew "nodes is forbidden") eq_refl).
Defined.

Lemma validateExternalCloudProviderConfig_complete_flag_witness :
  validateExternalCloudProviderConfig (λ _, true) (withComplete false (migrationState []))
  = None
  ∧ validateExternalCloudProviderConfig (λ _, true) (withComplete true (migrationState []))
    = None.
Proof.
  assert (H : validateExternalCloudProviderConfig (λ _, true)
                (withComplete false (migrationState [])) = None) by reflexivity.
  split; [exact H|].
  exact (proj2 (proj2 (validateExternalCloudProviderConfig_complete_flag (λ _, true)
                         (migrationState []))) H).
Defined.

Lemma validateExternalCloudProviderConfig_error_identifies_check_witness :
  validateExternalCloudProviderConfig (λ _, true) (migrationState [workerNode])
  = Some (errNew "the ccm/csi migration for cluster with static worker nodes is currently unsupported")
  ∧ Hosts (StaticWorkers (Cluster (migrationState [workerNode]))) ≠ [].
Proof.
  assert (H : validateExternalCloudProviderConfig (λ _, true) (migrationState [workerNode])
              = Some (errNew "the ccm/csi migration for cluster with static worker nodes is currently unsupported"))
    by reflexivity.
  split; [exact H|].
  exact (proj2 (proj2 (proj2 (proj2 (proj2
           (proj1 (proj2 (proj2 (proj2 (proj2 (proj2
              (validateExternalCloudProviderConfig_error_identifies_check (λ _, true)
                 (migrationState [workerNode]))))))) H)))))).
Defined.

Lemma readyToCompleteMigration_read_only_witness :
  DynamicClient noClientState = None
  ∧ readyToCompleteMigration quietEnv MachineAnnotations "ExternalCloudProvider"
      noClientState emptyWorld
    = (Fail (errNew "clientset not initialized"), emptyWorld).
Proof.
  split; [reflexivity|].
  exact (proj1 (proj2 (proj2 (proj2
           (readyToCompleteMigration_read_only quietEnv MachineAnnotations
              "ExternalCloudProvider" noClientState emptyWorld)))) eq_refl).
Defined.

Lemma machinesMigrated_order_insensitive_witness :
  [flaggedMachine "md-1" "true"; flaggedMachine "md-2" "false"]
    ≡ₚ [flaggedMachine "md-2" "false"; flaggedMachine "md-1" "true"]
  ∧ machinesMigrated MachineAnnotations "ExternalCloudProvider"
      [flaggedMachine "md-1" "true"; flaggedMachine "md-2" "false"]
    = machinesMigrated MachineAnnotations "ExternalCloudProvider"
        [flaggedMachine "md-2" "false"; flaggedMachine "md-1" "true"].
Proof.
  assert (H : [flaggedMachine "md-1" "true"; flaggedMachine "md-2" "false"]
                ≡ₚ [flaggedMachine "md-2" "false"; flaggedMachine "md-1" "true"])
    by apply perm_swap.
  split; [exact H|].
  exact (proj1 (proj2 (machinesMigrated_order_insensitive MachineAnnotations
                         "ExternalCloudProvider")) _ _ H).
Defined.

Lemma migrateOpenStackPVs_conservative_witness :
  interruptedRun.1 ≠ Ret tt
  ∧ persistentVolumes interruptedRun.2 !! "pv-c"
    = Some {[ provisionedByAnnotation := provisionedByOpenStackCSICinder ]}.
Proof.
  split; [vm_compute; discriminate|].
  apply (proj1 (proj2 (proj2 (migrateOpenStackPVs_conservative firstPatchConflictEnv
                                (migrationState []) threeVolumesWorld)))).
  - vm_compute. reflexivity.
  - intros H. vm_compute in H. discriminate.
Defined.

Lemma migrateOpenStackPVs_converges_witness :
  interruptedRun.1 ≠ Ret tt
  ∧ resumedRun.1 = Ret tt
  ∧ persistentVolumes resumedRun.2 = migrated <$> threeVolumes.
Proof.
  assert (Hret : resumedRun.1 = Ret tt) by (vm_compute; reflexivity).
  split; [vm_compute; discriminate|]. split; [exact Hret|].
  exact (migrateOpenStackPVs_converges firstPatchConflictEnv firstPatchConflictEnv
           (migrationState []) (migrationState []) threeVolumesWorld Hret).
Defined.

Lemma migrateOpenStackPVs_patch_calls_witness :
  EvPatchPersistentVolume "pv-a" csiPatch
    ∈ filter (λ ev, is_patch ev = true) (issued threeVolumesWorld threeVolumesRun.2)
  ∧ ∃ n a, EvPatchPersistentVolume "pv-a" csiPatch = EvPatchPersistentVolume n csiPatch
           ∧ threeVolumes !! n = Some a ∧ inTreeCinder a.
Proof.
  assert (Hin : EvPatchPersistentVolume "pv-a" csiPatch
                  ∈ filter (λ ev, is_patch ev = true)
                      (issued threeVolumesWorld threeVolumesRun.2)).
  { vm_compute. first [by left | by right; left]. }
  split; [exact Hin|].
  exact (proj1 (migrateOpenStackPVs_patch_calls quietEnv (migrationState [])
                  threeVolumesWorld) _ Hin).
Defined.

Lemma migrateOpenStackPVs_lists_once_witness :
  DynamicClient noClientState = None
  ∧ migrateOpenStackPVs quietEnv noClientState threeVolumesWorld
    = (Fail (errNew "dynamic client is not initialized"), threeVolumesWorld).
Proof.
  split; [reflexivity|].
  exact (proj1 (migrateOpenStackPVs_lists_once quietEnv noClientState threeVolumesWorld)
           eq_refl).
Defined.
